(** * Reconstruction of points through topological plate models

    A shallow embedding of [gplately/reconstruction.py]: the collision
    policies [DefaultCollision] and [ContinentCollision] and the
    time-stepped engine [ReconstructByTopologies].

    Conventions of the embedding.
    - Python floats that hold geological times, velocities and distances
      are rationals ([Q]); a per-point begin or end time may also be an
      infinity ([xtime]).  Rounding of floats is not modelled.
    - [None] is [option]'s [None]; a Python list indexed by position is a
      [list] read with [!!] and written with [<[i:=v]>]; an index out of
      range raises in Python and yields [None] (an error) in the option
      monad here.
    - A Python dict is a [gmap].
    - The pygplates / ptt / scipy collaborators are the fields of the
      class [Pygplates]. *)

From Stdlib Require Import QArith Qround Qabs Lqa.
From stdpp Require Import gmap strings list.

Local Open Scope Z_scope.

(** ** Times *)

(** A float time that may be [float('inf')] or [float('-inf')]. *)
Inductive xtime : Type :=
  | NegInf
  | Fin (q : Q)
  | PosInf.

(** [t <= x] for a finite [t]. *)
Definition xle_r (t : Q) (x : xtime) : bool :=
  match x with
  | NegInf => false
  | Fin q => Qle_bool t q
  | PosInf => true
  end.

(** [t >= x] for a finite [t]. *)
Definition xge_r (t : Q) (x : xtime) : bool :=
  match x with
  | NegInf => true
  | Fin q => Qle_bool q t
  | PosInf => false
  end.

(** Python's [a > b] on floats. *)
Definition Qgt_bool (a b : Q) : bool := negb (Qle_bool a b).

(** ** Exceptions *)

Inductive exn : Type :=
  | ValueError (msg : string)
  | OverflowError (msg : string)
  | ZeroDivisionError (msg : string).

Inductive result (A : Type) : Type :=
  | Ok (a : A)
  | Raise (e : exn).
Arguments Ok {A} a.
Arguments Raise {A} e.

(** ** Python floats with their special values

    A float is a finite value, taken as a rational, an infinity or NaN.
    The operations below are those of lines 1485 to 1501 of
    [reconstruction.py]; on finite values they are exact. *)













(** ** The collaborators (pygplates, ptt.utils.points_in_polygons, grids) *)

Class Pygplates : Type := {
  PointOnSphere : Type;
  FiniteRotation : Type;
  RotationModel : Type;
  Features : Type;
  ResolvedTopology : Type;
  SubSegment : Type;
  Geometry : Type;
  Vector3D : Type;
  Raster : Type;
  (** [rotation_model.get_rotation(to_time, plate_id, from_time)] *)
  get_rotation : RotationModel -> Q -> Z -> Q -> FiniteRotation;
  (** [stage_rotation * point] *)
  rotate : FiniteRotation -> PointOnSphere -> PointOnSphere;
  (** [pygplates.resolve_topologies(features, rotation_model, out, time)] *)
  resolve_topologies : Features -> RotationModel -> Q -> list ResolvedTopology;
  (** [ptt.utils.points_in_polygons.find_polygons(points, polygons, proxies)] *)
  find_polygons :
    list PointOnSphere -> list Geometry -> list ResolvedTopology ->
    list (option ResolvedTopology);
  find_polygons_length : forall ps gs ts,
    length (find_polygons ps gs ts) = length ps;
  get_resolved_boundary : ResolvedTopology -> Geometry;
  (** [topology.get_feature().get_reconstruction_plate_id()] *)
  get_reconstruction_plate_id : ResolvedTopology -> Z;
  get_boundary_sub_segments : ResolvedTopology -> list SubSegment;
  (** [sub_segment.get_feature().get_feature_type()] *)
  get_feature_type : SubSegment -> string;
  get_resolved_geometry : SubSegment -> Geometry;
  (** [pygplates.calculate_velocities((p,), rotation, 1, kms_per_my)[0]] *)
  calculate_velocity : PointOnSphere -> FiniteRotation -> Vector3D;
  (** [v1 - v2] on velocity vectors *)
  vsub : Vector3D -> Vector3D -> Vector3D;
  get_magnitude : Vector3D -> Q;
  (** the geodesic distance of a point to a geometry, in radians *)
  geodesic : PointOnSphere -> Geometry -> Q;
  (** [read_netcdf_grid(grd_output_dir.format(time))] with the
      nearest-neighbour [RegularGridInterpolator] built on it *)
  read_netcdf_grid : string -> Q -> Raster;
  (** the interpolator sampled at the point's (longitude, latitude) *)
  sample : Raster -> PointOnSphere -> Q
}.

(** [pygplates.Earth.equatorial_radius_in_kms] *)
Definition equatorial_radius_in_kms : Q := 6378137 # 1000.

(** [pygplates.GeometryOnSphere.distance(point, geometry, threshold)]:
    the distance, or [None] when it exceeds the threshold. *)
Definition GeometryOnSphere_distance `{Pygplates}
    (p : PointOnSphere) (g : Geometry) (threshold : Q) : option Q :=
  if Qle_bool (geodesic p g) threshold then Some (geodesic p g) else None.

(** The arguments a collision policy is called with. *)
Record CollisionQuery `{Pygplates} : Type := {
  q_rotation_model : RotationModel;
  q_time : Q;
  q_reconstruction_time_interval : Q;
  q_prev_point : PointOnSphere;
  q_curr_point : PointOnSphere;
  q_prev_topology_plate_id : option Z;
  q_prev_resolved_plate_boundary : option ResolvedTopology;
  q_curr_topology_plate_id : option Z;
  q_curr_resolved_plate_boundary : option ResolvedTopology
}.

(** A collision policy is a callable object with internal state: a call
    returns its verdict and the object's new state, or raises ([None]). *)
Definition Policy `{Pygplates} (CS : Type) : Type :=
  CS -> CollisionQuery -> option (bool * CS).

(** ** [DefaultCollision] *)

Module DefaultCollision.
Section WithPygplates.
Context `{Pygplates}.

Record t : Type := {
  feature_specific_collision_parameters : gmap string (Q * Q);
  global_collision_parameters : Q * Q;
  velocity_stage_rotation_dict : gmap Z FiniteRotation;
  velocity_stage_rotation_time : option Q
}.

Definition DEFAULT_GLOBAL_COLLISION_PARAMETERS : Q * Q := (7 # 1, 10 # 1)%Q.

(** [dict(pairs)]: a later pair overrides an earlier one. *)
Definition dict_of_pairs (l : list (string * (Q * Q))) : gmap string (Q * Q) :=
  foldl (fun m kv => <[kv.1 := kv.2]> m) ∅ l.

Definition __init__
    (global_parameters : Q * Q)
    (feature_specific : option (list (string * (Q * Q)))) : t :=
  {| feature_specific_collision_parameters :=
       match feature_specific with
       | Some (kv :: l) => dict_of_pairs (kv :: l)
       | _ => ∅
       end;
     global_collision_parameters := global_parameters;
     velocity_stage_rotation_dict := ∅;
     velocity_stage_rotation_time := None |}.

Definition _detect_collision_using_collision_parameters
    (reconstruction_time_interval delta_velocity_magnitude : Q)
    (prev_point : PointOnSphere) (prev_boundary_geometry : Geometry)
    (threshold_velocity_delta threshold_distance_to_boundary_per_my : Q) : bool :=
  if Qgt_bool delta_velocity_magnitude threshold_velocity_delta then
    let distance_threshold_radians :=
      ((threshold_distance_to_boundary_per_my + delta_velocity_magnitude)
       * reconstruction_time_interval / equatorial_radius_in_kms)%Q in
    match GeometryOnSphere_distance prev_point prev_boundary_geometry
            distance_threshold_radians with
    | Some _ => true
    | None => false
    end
  else false.

(** [time != self.velocity_stage_rotation_time] *)
Definition time_differs (time : Q) (cached : option Q) : bool :=
  match cached with
  | None => true
  | Some t' => negb (Qeq_bool time t')
  end.

(** The cache is cleared when the time changes. *)
Definition refresh (self : t) (time : Q) : t :=
  if time_differs time (velocity_stage_rotation_time self) then
    {| feature_specific_collision_parameters :=
         feature_specific_collision_parameters self;
       global_collision_parameters := global_collision_parameters self;
       velocity_stage_rotation_dict := ∅;
       velocity_stage_rotation_time := Some time |}
  else self.

(** [dict.get(plate_id)], filled from the rotation model on a miss. *)
Definition velocity_stage_rotation
    (self : t) (rotation_model : RotationModel) (time : Q) (plate_id : Z)
    : FiniteRotation * t :=
  match velocity_stage_rotation_dict self !! plate_id with
  | Some r => (r, self)
  | None =>
      let r := get_rotation rotation_model (time + 1)%Q plate_id time in
      (r, {| feature_specific_collision_parameters :=
               feature_specific_collision_parameters self;
             global_collision_parameters := global_collision_parameters self;
             velocity_stage_rotation_dict :=
               <[plate_id := r]> (velocity_stage_rotation_dict self);
             velocity_stage_rotation_time := velocity_stage_rotation_time self |})
  end.

(** The velocity difference of the current point under the two plates. *)
Definition delta_velocity_magnitude
    (curr_point : PointOnSphere) (prev_rot curr_rot : FiniteRotation) : Q :=
  let prev_location_velocity := calculate_velocity curr_point prev_rot in
  let curr_location_velocity := calculate_velocity curr_point curr_rot in
  get_magnitude (vsub curr_location_velocity prev_location_velocity).

(** [__call__]; [None] is the AttributeError of calling a method on an
    absent previous boundary. *)
Definition __call__ (self : t) (q : CollisionQuery) : option (bool * t) :=
  match q_prev_topology_plate_id q, q_curr_topology_plate_id q with
  | Some prev_id, Some curr_id =>
      if decide (curr_id = prev_id) then Some (false, self)
      else
        let time := q_time q in
        let self1 := refresh self time in
        let '(prev_rot, self2) :=
          velocity_stage_rotation self1 (q_rotation_model q) time prev_id in
        let '(curr_rot, self3) :=
          velocity_stage_rotation self2 (q_rotation_model q) time curr_id in
        let delta := delta_velocity_magnitude (q_curr_point q) prev_rot curr_rot in
        prev_boundary ← q_prev_resolved_plate_boundary q;
        if decide (feature_specific_collision_parameters self3 = ∅) then
          let '(threshold_velocity_delta, threshold_distance_to_boundary_per_my) :=
            global_collision_parameters self3 in
          Some (_detect_collision_using_collision_parameters
                  (q_reconstruction_time_interval q) delta (q_prev_point q)
                  (get_resolved_boundary prev_boundary)
                  threshold_velocity_delta threshold_distance_to_boundary_per_my,
                self3)
        else
          Some (existsb
                  (fun sub_segment =>
                     let '(threshold_velocity_delta,
                           threshold_distance_to_boundary_per_my) :=
                       default (global_collision_parameters self3)
                         (feature_specific_collision_parameters self3
                            !! get_feature_type sub_segment) in
                     _detect_collision_using_collision_parameters
                       (q_reconstruction_time_interval q) delta (q_prev_point q)
                       (get_resolved_geometry sub_segment)
                       threshold_velocity_delta threshold_distance_to_boundary_per_my)
                  (get_boundary_sub_segments prev_boundary),
                self3)
  | _, _ => Some (false, self)
  end.


End WithPygplates.
End DefaultCollision.

(** ** [ContinentCollision] *)

Module ContinentCollision.
Section WithPygplates.
Context `{Pygplates}.
(** The state of the chained policy object. *)
Context {CS : Type}.

(** [continent_deletion_count] and [f] are attributes that exist only
    once a grid has been loaded. *)
Record t : Type := {
  grd_output_dir : string;
  chain_collision_detection : option (Policy CS);
  chain_state : CS;
  grid_time : option Q;
  continent_deletion_count : option Z;
  f : option Raster
}.

Definition __init__
    (dir : string) (chain : option (Policy CS)) (chain_init : CS) : t :=
  {| grd_output_dir := dir;
     chain_collision_detection := chain;
     chain_state := chain_init;
     grid_time := None;
     continent_deletion_count := None;
     f := None |}.

(** [time != self.grid_time] *)
Definition time_differs (time : Q) (loaded : option Q) : bool :=
  match loaded with
  | None => true
  | Some t' => negb (Qeq_bool time t')
  end.

(** Load the grid for the current time if encountering a new time. *)
Definition load (self : t) (time : Q) : t :=
  if time_differs time (grid_time self) then
    {| grd_output_dir := grd_output_dir self;
       chain_collision_detection := chain_collision_detection self;
       chain_state := chain_state self;
       grid_time := Some time;
       continent_deletion_count := Some 0;
       f := Some (read_netcdf_grid (grd_output_dir self) time) |}
  else self.

Definition set_continent_deletion_count (self : t) (c : Z) : t :=
  {| grd_output_dir := grd_output_dir self;
     chain_collision_detection := chain_collision_detection self;
     chain_state := chain_state self;
     grid_time := grid_time self;
     continent_deletion_count := Some c;
     f := f self |}.

Definition set_chain_state (self : t) (cs : CS) : t :=
  {| grd_output_dir := grd_output_dir self;
     chain_collision_detection := chain_collision_detection self;
     chain_state := cs;
     grid_time := grid_time self;
     continent_deletion_count := continent_deletion_count self;
     f := f self |}.

Definition __call__ (self : t) (q : CollisionQuery) : option (bool * t) :=
  let self1 := load self (q_time q) in
  raster ← f self1;
  if Qgt_bool (sample raster (q_curr_point q)) (1 # 2) then
    count ← continent_deletion_count self1;
    Some (true, set_continent_deletion_count self1 (count + 1))
  else
    match chain_collision_detection self1 with
    | Some chain =>
        '(verdict, cs) ← chain (chain_state self1) q;
        Some (verdict, set_chain_state self1 cs)
    | None => Some (false, self1)
    end.



(** A grid, once loaded, comes with its counter and interpolator. *)
Definition loaded_ok (self : t) : Prop :=
  is_Some (grid_time self) ->
  is_Some (continent_deletion_count self) /\ is_Some (f self).

End WithPygplates.
Arguments t {_} CS.
End ContinentCollision.

(** ** Loops over indices and indexed stores *)

(** [for i in idx: body(i)], where a raised exception ends the loop. *)
Fixpoint for_each {S : Type} (idx : list nat) (body : nat -> S -> option S) (s : S)
    : option S :=
  match idx with
  | [] => Some s
  | i :: rest => s' ← body i s; for_each rest body s'
  end.

(** [for i in range(n): body(i)] *)
Definition for_range {S : Type} (n : nat) (body : nat -> S -> option S) (s : S)
    : option S :=
  for_each (seq 0 n) body s.

(** [l[i] = v]; an index out of range raises. *)
Definition store {A : Type} (l : list A) (i : nat) (v : A) : option (list A) :=
  if decide (i < length l)%nat then Some (<[i := v]> l) else None.

(** [any(points)]: some entry is not [None]. *)
Definition any_point {A : Type} (l : list (option A)) : bool :=
  existsb (fun o => match o with Some _ => true | None => false end) l.

(** ** [ReconstructByTopologies] *)

Module ReconstructByTopologies.
Section WithPygplates.
Context `{Pygplates}.
(** The state of the collision policy object. *)
Context {CS : Type}.

(** The attributes set by [__init__]; they are not assigned afterwards. *)
Record t : Type := {
  rotation_model : RotationModel;
  topology_features : Features;
  reconstruction_begin_time : Q;
  reconstruction_end_time : Q;
  reconstruction_time_step : Q;
  reconstruction_time_interval : Q;
  num_times : Z;
  last_time_index : Z;
  points : list PointOnSphere;
  num_points : nat;
  point_begin_times : list xtime;
  point_end_times : list xtime;
  point_plate_ids : list Z;
  detect_collisions : option (Policy CS)
}.

(** The signed step before the count of times is known. *)
Definition signed_step (begin_time end_time interval : Q) : Q :=
  if Qgt_bool begin_time end_time then (- interval)%Q else interval.

(** [1 + int(math.floor(1e-6 + float(end - begin) / step))] *)
Definition count_times (begin_time end_time step : Q) : Z :=
  1 + Qfloor ((1 # 1000000) + (end_time - begin_time) / step)%Q.

(** An optional per-point array: the default when omitted, a
    [ValueError] when its length is not the number of points. *)
Definition per_point {A : Type}
    (given : option (list A)) (dflt : A) (n : nat) (msg : string)
    : result (list A) :=
  match given with
  | None => Ok (replicate n dflt)
  | Some l => if decide (length l = n) then Ok l else Raise (ValueError msg)
  end.

(** [__init__] on a finite begin time, end time and interval, each taken
    as the rational it stands for.  [__init__of_floats] below is the
    constructor on Python floats with their infinities and NaN; on
    finite arguments the two agree (lemma [init_of_floats_finite]). *)
Definition __init__
    (rotation_features_or_model : RotationModel)
    (topology : Features)
    (begin_time end_time interval : Q)
    (pts : list PointOnSphere)
    (begin_times end_times : option (list xtime))
    (plate_ids : option (list Z))
    (detect : option (Policy CS)) : result t :=
  if Qle_bool interval 0 then
    Raise (ValueError "'reconstruction_time_interval' must be positive.")
  else
    let step0 := signed_step begin_time end_time interval in
    let n0 := count_times begin_time end_time step0 in
    let n := if decide (n0 = 1) then 2 else n0 in
    let step := if decide (n0 = 1) then (end_time - begin_time)%Q else step0 in
    match per_point begin_times PosInf (length pts)
            "Length of 'point_begin_times' must match length of 'points'." with
    | Raise e => Raise e
    | Ok bts =>
    match per_point end_times NegInf (length pts)
            "Length of 'point_end_times' must match length of 'points'." with
    | Raise e => Raise e
    | Ok ets =>
    match per_point plate_ids 0 (length pts)
            "Length of 'point_plate_ids' must match length of 'points'." with
    | Raise e => Raise e
    | Ok ids =>
        Ok {| rotation_model := rotation_features_or_model;
              topology_features := topology;
              reconstruction_begin_time := begin_time;
              reconstruction_end_time := end_time;
              reconstruction_time_step := step;
              reconstruction_time_interval := Qabs step;
              num_times := n;
              last_time_index := n - 1;
              points := pts;
              num_points := length pts;
              point_begin_times := bts;
              point_end_times := ets;
              point_plate_ids := ids;
              detect_collisions := detect |}
    end end end.



(** The attributes set by [begin_reconstruction] and mutated by the
    steps.  The three point buffers are three list objects whose roles
    rotate; [in_continent_indices] and [in_continent_points] are never
    written after their creation and are left out. *)
Record state : Type := {
  current_time_index : Z;
  prev_points : list (option PointOnSphere);
  curr_points : list (option PointOnSphere);
  next_points : list (option PointOnSphere);
  point_has_been_activated : list bool;
  num_activated_points : nat;
  prev_topology_plate_ids : list (option Z);
  curr_topology_plate_ids : list (option Z);
  prev_resolved_plate_boundaries : list (option ResolvedTopology);
  curr_resolved_plate_boundaries : list (option ResolvedTopology);
  deletedpoints : list nat;
  collision_state : CS
}.

Definition set_curr_points (s : state) (l : list (option PointOnSphere)) : state :=
  {| current_time_index := current_time_index s;
     prev_points := prev_points s; curr_points := l; next_points := next_points s;
     point_has_been_activated := point_has_been_activated s;
     num_activated_points := num_activated_points s;
     prev_topology_plate_ids := prev_topology_plate_ids s;
     curr_topology_plate_ids := curr_topology_plate_ids s;
     prev_resolved_plate_boundaries := prev_resolved_plate_boundaries s;
     curr_resolved_plate_boundaries := curr_resolved_plate_boundaries s;
     deletedpoints := deletedpoints s;
     collision_state := collision_state s |}.

Definition set_next_points (s : state) (l : list (option PointOnSphere)) : state :=
  {| current_time_index := current_time_index s;
     prev_points := prev_points s; curr_points := curr_points s; next_points := l;
     point_has_been_activated := point_has_been_activated s;
     num_activated_points := num_activated_points s;
     prev_topology_plate_ids := prev_topology_plate_ids s;
     curr_topology_plate_ids := curr_topology_plate_ids s;
     prev_resolved_plate_boundaries := prev_resolved_plate_boundaries s;
     curr_resolved_plate_boundaries := curr_resolved_plate_boundaries s;
     deletedpoints := deletedpoints s;
     collision_state := collision_state s |}.

(** [point_has_been_activated[i] = True; num_activated_points += 1] *)
Definition set_activated (s : state) (l : list bool) (n : nat) : state :=
  {| current_time_index := current_time_index s;
     prev_points := prev_points s; curr_points := curr_points s;
     next_points := next_points s;
     point_has_been_activated := l;
     num_activated_points := n;
     prev_topology_plate_ids := prev_topology_plate_ids s;
     curr_topology_plate_ids := curr_topology_plate_ids s;
     prev_resolved_plate_boundaries := prev_resolved_plate_boundaries s;
     curr_resolved_plate_boundaries := curr_resolved_plate_boundaries s;
     deletedpoints := deletedpoints s;
     collision_state := collision_state s |}.

Definition set_curr_topology
    (s : state) (ids : list (option Z)) (bs : list (option ResolvedTopology))
    : state :=
  {| current_time_index := current_time_index s;
     prev_points := prev_points s; curr_points := curr_points s;
     next_points := next_points s;
     point_has_been_activated := point_has_been_activated s;
     num_activated_points := num_activated_points s;
     prev_topology_plate_ids := prev_topology_plate_ids s;
     curr_topology_plate_ids := ids;
     prev_resolved_plate_boundaries := prev_resolved_plate_boundaries s;
     curr_resolved_plate_boundaries := bs;
     deletedpoints := deletedpoints s;
     collision_state := collision_state s |}.

(** The policy object after a call, and the recorded deletions. *)
Definition set_collision (s : state) (cs : CS) (deleted : list nat) : state :=
  {| current_time_index := current_time_index s;
     prev_points := prev_points s; curr_points := curr_points s;
     next_points := next_points s;
     point_has_been_activated := point_has_been_activated s;
     num_activated_points := num_activated_points s;
     prev_topology_plate_ids := prev_topology_plate_ids s;
     curr_topology_plate_ids := curr_topology_plate_ids s;
     prev_resolved_plate_boundaries := prev_resolved_plate_boundaries s;
     curr_resolved_plate_boundaries := curr_resolved_plate_boundaries s;
     deletedpoints := deleted;
     collision_state := cs |}.

(** The three tuple assignments that rotate the buffers, and
    [current_time_index += 1]. *)
Definition rotate_buffers (s : state) : state :=
  {| current_time_index := current_time_index s + 1;
     prev_points := curr_points s;
     curr_points := next_points s;
     next_points := prev_points s;
     point_has_been_activated := point_has_been_activated s;
     num_activated_points := num_activated_points s;
     prev_topology_plate_ids := curr_topology_plate_ids s;
     curr_topology_plate_ids := prev_topology_plate_ids s;
     prev_resolved_plate_boundaries := curr_resolved_plate_boundaries s;
     curr_resolved_plate_boundaries := prev_resolved_plate_boundaries s;
     deletedpoints := deletedpoints s;
     collision_state := collision_state s |}.

Definition get_current_time (self : t) (s : state) : Q :=
  (reconstruction_begin_time self
   + inject_Z (current_time_index s) * reconstruction_time_step self)%Q.

Definition get_all_current_points (s : state) : list (option PointOnSphere) :=
  curr_points s.

(** [[point for point in ... if point is not None]] *)
Definition get_active_current_points (s : state) : list PointOnSphere :=
  omap id (get_all_current_points s).

(** [time <= begin_times[i] and time >= end_times[i]], the second
    operand read only when the first holds. *)
Definition in_valid_time_range (self : t) (time : Q) (i : nat) : option bool :=
  bt ← point_begin_times self !! i;
  if xle_r time bt then
    et ← point_end_times self !! i;
    Some (xge_r time et)
  else Some false.

(** One iteration of the loop of [_activate_deactivate_points]. *)
Definition activate_deactivate_point (self : t) (time : Q) (i : nat) (s : state)
    : option state :=
  curr_point ← curr_points s !! i;
  match curr_point with
  | None =>
      activated ← point_has_been_activated s !! i;
      if (activated : bool) then Some s
      else
        valid ← in_valid_time_range self time i;
        if (valid : bool) then
          p ← points self !! i;
          cs ← store (curr_points s) i (Some p);
          flags ← store (point_has_been_activated s) i true;
          Some (set_activated (set_curr_points s cs) flags
                  (num_activated_points s + 1)%nat)
        else Some s
  | Some _ =>
      valid ← in_valid_time_range self time i;
      if (valid : bool) then Some s
      else
        cs ← store (curr_points s) i None;
        Some (set_curr_points s cs)
  end.

Definition _activate_deactivate_points (self : t) (s : state) : option state :=
  for_range (num_points self)
    (activate_deactivate_point self (get_current_time self s)) s.

(** The first loop of [_find_resolved_topologies_containing_points]:
    the active points, and for each point its position among them. *)
Definition index_valid_point (s : state) (i : nat)
    (acc : list PointOnSphere * list (option nat))
    : option (list PointOnSphere * list (option nat)) :=
  curr_point ← curr_points s !! i;
  match curr_point with
  | Some p =>
      indices ← store acc.2 i (Some (length acc.1));
      Some (acc.1 ++ [p], indices)
  | None => Some acc
  end.

(** The second loop: the boundary and plate ID of each point. *)
Definition locate_point
    (found : list (option ResolvedTopology)) (indices : list (option nat))
    (i : nat) (s : state) : option state :=
  curr_point ← curr_points s !! i;
  match curr_point with
  | None =>
      ids ← store (curr_topology_plate_ids s) i None;
      bs ← store (curr_resolved_plate_boundaries s) i None;
      Some (set_curr_topology s ids bs)
  | Some _ =>
      valid_index ← indices !! i;
      k ← valid_index;
      curr_polygon ← found !! k;
      bs ← store (curr_resolved_plate_boundaries s) i curr_polygon;
      ids ← store (curr_topology_plate_ids s) i
              (get_reconstruction_plate_id <$> curr_polygon);
      Some (set_curr_topology s ids bs)
  end.

(** [use_plate_partitioner] is [False]. *)
Definition _find_resolved_topologies_containing_points (self : t) (s : state)
    : option state :=
  let current_time := get_current_time self s in
  let resolved_topologies :=
    resolve_topologies (topology_features self) (rotation_model self) current_time in
  '(curr_valid_points, curr_valid_points_indices) ←
    for_range (length (curr_points s)) (index_valid_point s)
      ([], replicate (num_points self) None);
  let found :=
    find_polygons curr_valid_points
      (get_resolved_boundary <$> resolved_topologies) resolved_topologies in
  for_range (length (curr_points s))
    (locate_point found curr_valid_points_indices) s.

Definition begin_reconstruction (self : t) (cs : CS) : option state :=
  let n := num_points self in
  let s :=
    {| current_time_index := 0;
       prev_points := replicate n None;
       curr_points := replicate n None;
       next_points := replicate n None;
       point_has_been_activated := replicate n false;
       num_activated_points := 0;
       prev_topology_plate_ids := replicate n None;
       curr_topology_plate_ids := replicate n None;
       prev_resolved_plate_boundaries := replicate n None;
       curr_resolved_plate_boundaries := replicate n None;
       deletedpoints := [];
       collision_state := cs |} in
  s1 ← _activate_deactivate_points self s;
  _find_resolved_topologies_containing_points self s1.

(** [dict.get(plate_id)] on the per-step cache, filled on a miss. *)
Definition stage_rotation_for
    (self : t) (current_time : Q) (dict : gmap Z FiniteRotation) (plate_id : Z)
    : FiniteRotation * gmap Z FiniteRotation :=
  match dict !! plate_id with
  | Some r => (r, dict)
  | None =>
      let r :=
        get_rotation (rotation_model self)
          (current_time + reconstruction_time_step self)%Q plate_id current_time in
      (r, <[plate_id := r]> dict)
  end.

(** One iteration of the first loop of [reconstruct_to_next_time]. *)
Definition reconstruct_point (self : t) (current_time : Q) (i : nat)
    (acc : state * gmap Z FiniteRotation) : option (state * gmap Z FiniteRotation) :=
  let '(s, dict) := acc in
  curr_point ← curr_points s !! i;
  match curr_point with
  | None =>
      ns ← store (next_points s) i None;
      Some (set_next_points s ns, dict)
  | Some p =>
      curr_plate_id ← curr_topology_plate_ids s !! i;
      match curr_plate_id with
      | None =>
          (* curr_plate_id = self.point_plate_ids[point_index]; continue *)
          _ ← point_plate_ids self !! i;
          Some (s, dict)
      | Some plate_id =>
          let '(stage_rotation, dict') :=
            stage_rotation_for self current_time dict plate_id in
          ns ← store (next_points s) i (Some (rotate stage_rotation p));
          Some (set_next_points s ns, dict')
      end
  end.

(** One iteration of the collision loop. *)
Definition detect_collision_at
    (self : t) (detect : Policy CS) (current_time : Q) (i : nat) (s : state)
    : option state :=
  prev_point ← prev_points s !! i;
  curr_point ← curr_points s !! i;
  match prev_point, curr_point with
  | Some pp, Some cp =>
      prev_plate_id ← prev_topology_plate_ids s !! i;
      curr_plate_id ← curr_topology_plate_ids s !! i;
      prev_boundary ← prev_resolved_plate_boundaries s !! i;
      curr_boundary ← curr_resolved_plate_boundaries s !! i;
      '(collided, cs) ←
        detect (collision_state s)
          {| q_rotation_model := rotation_model self;
             q_time := current_time;
             q_reconstruction_time_interval := reconstruction_time_interval self;
             q_prev_point := pp;
             q_curr_point := cp;
             q_prev_topology_plate_id := prev_plate_id;
             q_prev_resolved_plate_boundary := prev_boundary;
             q_curr_topology_plate_id := curr_plate_id;
             q_curr_resolved_plate_boundary := curr_boundary |};
      if (collided : bool) then
        ps ← store (curr_points s) i None;
        Some (set_collision (set_curr_points s ps) cs (deletedpoints s ++ [i]))
      else Some (set_collision s cs (deletedpoints s))
  | _, _ => Some s
  end.

Definition detect_all_collisions (self : t) (s : state) : option state :=
  match detect_collisions self with
  | Some detect =>
      for_range (num_points self)
        (detect_collision_at self detect (get_current_time self s)) s
  | None => Some s
  end.

(** The two tests that end the run. *)
Definition finished (self : t) (s : state) : bool :=
  bool_decide (current_time_index s = last_time_index self)
  || (bool_decide (num_activated_points s = num_points self)
      && negb (any_point (curr_points s))).

Definition reconstruct_to_next_time (self : t) (s : state) : option (bool * state) :=
  if bool_decide (current_time_index s = last_time_index self) then Some (false, s)
  else if bool_decide (num_activated_points s = num_points self)
          && negb (any_point (curr_points s)) then Some (false, s)
  else
    let current_time := get_current_time self s in
    '(s1, _) ← for_range (num_points self)
                 (reconstruct_point self current_time) (s, ∅);
    let s2 := rotate_buffers s1 in
    s3 ← _activate_deactivate_points self s2;
    s4 ← _find_resolved_topologies_containing_points self s3;
    s5 ← detect_all_collisions self s4;
    Some (true, s5).

(** [while self.reconstruct_to_next_time(): pass], with a bound on the
    number of iterations; [None] when the bound is reached. *)
Fixpoint reconstruct_loop (fuel : nat) (self : t) (s : state) : option state :=
  match fuel with
  | O => None
  | S fuel' =>
      '(progress, s') ← reconstruct_to_next_time self s;
      if (progress : bool) then reconstruct_loop fuel' self s' else Some s'
  end.

Definition reconstruct (fuel : nat) (self : t) (cs : CS)
    : option (list PointOnSphere) :=
  s0 ← begin_reconstruction self cs;
  s ← reconstruct_loop fuel self s0;
  Some (get_active_current_points s).

(** [k] calls of [reconstruct_to_next_time] from the state [s]; a call
    that reports no progress leaves the state as it is. *)
Fixpoint steps (k : nat) (self : t) (s : state) : option state :=
  match k with
  | O => Some s
  | S k' =>
      r ← reconstruct_to_next_time self s;
      steps k' self r.2
  end.

(** The state after [begin_reconstruction] and [k] calls of
    [reconstruct_to_next_time]. *)
Definition advance (k : nat) (self : t) (cs : CS) : option state :=
  s0 ← begin_reconstruction self cs;
  steps k self s0.

(** *** The code seen point by point

    The definitions below state what one step does to the entries of
    one index; the lemmas on the loops relate them to the code. *)

(** The arrays of the engine have one entry per point. *)
Definition wf_engine (self : t) : Prop :=
  length (points self) = num_points self /\
  length (point_begin_times self) = num_points self /\
  length (point_end_times self) = num_points self /\
  length (point_plate_ids self) = num_points self.

(** The plate ID of an index is that of its boundary. *)
Definition topology_consistent
    (ids : list (option Z)) (bs : list (option ResolvedTopology)) : Prop :=
  forall i b, bs !! i = Some b -> ids !! i = Some (get_reconstruction_plate_id <$> b).

(** The number of [True] entries. *)
Definition count_true (l : list bool) : nat := length (List.filter id l).

(** The arrays of a state have one entry per point, plate IDs belong
    to boundaries, an active point has been activated, and the counter
    counts the activated points.  [P] is what the policy object needs
    of its state. *)
Record wf_state (P : CS -> Prop) (self : t) (s : state) : Prop := {
  wf_prev_points : length (prev_points s) = num_points self;
  wf_curr_points : length (curr_points s) = num_points self;
  wf_next_points : length (next_points s) = num_points self;
  wf_activated : length (point_has_been_activated s) = num_points self;
  wf_prev_ids : length (prev_topology_plate_ids s) = num_points self;
  wf_curr_ids : length (curr_topology_plate_ids s) = num_points self;
  wf_prev_boundaries : length (prev_resolved_plate_boundaries s) = num_points self;
  wf_curr_boundaries : length (curr_resolved_plate_boundaries s) = num_points self;
  wf_prev_topology :
    topology_consistent (prev_topology_plate_ids s) (prev_resolved_plate_boundaries s);
  wf_curr_topology :
    topology_consistent (curr_topology_plate_ids s) (curr_resolved_plate_boundaries s);
  wf_active_activated : forall i p,
    prev_points s !! i = Some (Some p) \/ curr_points s !! i = Some (Some p) \/
    next_points s !! i = Some (Some p) ->
    point_has_been_activated s !! i = Some true;
  wf_counter : num_activated_points s = count_true (point_has_been_activated s);
  wf_time_index : 0 <= current_time_index s;
  wf_policy : P (collision_state s)
}.

(** A query as the engine makes them: a plate ID comes with its boundary. *)
Definition query_consistent (q : CollisionQuery) : Prop :=
  q_prev_topology_plate_id q
    = get_reconstruction_plate_id <$> q_prev_resolved_plate_boundary q /\
  q_curr_topology_plate_id q
    = get_reconstruction_plate_id <$> q_curr_resolved_plate_boundary q.

(** The policy returns a verdict on the queries of the engine, and
    keeps what it needs of its state. *)
Definition policy_total (P : CS -> Prop) (detect : option (Policy CS)) : Prop :=
  forall d, detect = Some d ->
  forall cs q, P cs -> query_consistent q ->
  exists verdict cs', d cs q = Some (verdict, cs') /\ P cs'.

(** [time] lies in the valid time range of point [i]. *)
Definition window (self : t) (time : Q) (i : nat) : bool :=
  match point_begin_times self !! i, point_end_times self !! i with
  | Some bt, Some et => xle_r time bt && xge_r time et
  | _, _ => false
  end.

(** What [_activate_deactivate_points] makes of the position [c] and of
    the activation flag [a] of a point with seed position [seed]. *)
Definition activation (valid : bool) (seed : PointOnSphere)
    (c : option PointOnSphere) (a : bool) : option PointOnSphere * bool :=
  match c with
  | None =>
      if a then (None, true)
      else if valid then (Some seed, true) else (None, false)
  | Some x => if valid then (Some x, a) else (None, a)
  end.

(** What the first loop of [reconstruct_to_next_time] leaves in
    [next_points] for a point at [c] with plate ID [plate_id], where
    [stale] is what the entry held before the loop. *)
Definition next_position (self : t) (time : Q)
    (c : option PointOnSphere) (plate_id : option Z) (stale : option PointOnSphere)
    : option PointOnSphere :=
  match c with
  | None => None
  | Some p =>
      match plate_id with
      | None => stale
      | Some id =>
          Some (rotate
                  (get_rotation (rotation_model self)
                     (time + reconstruction_time_step self)%Q id time) p)
      end
  end.

(** The run is over: the last time is reached, or every point has been
    activated and none is active. *)
Definition stops (self : t) (s : state) : Prop :=
  current_time_index s = last_time_index self \/
  ((forall i, (i < num_points self)%nat ->
      point_has_been_activated s !! i = Some true) /\
   (forall i, (i < num_points self)%nat -> curr_points s !! i = Some None)).

(** The sample time of index [k]. *)
Definition sample_time (self : t) (k : Z) : Q :=
  (reconstruction_begin_time self + inject_Z k * reconstruction_time_step self)%Q.

(** Every point lies in some resolved polygon. *)
Definition locator_total : Prop :=
  forall ps gs ts k, (k < length ps)%nat ->
    exists b, find_polygons ps gs ts !! k = Some (Some b).


(** The query of the collision loop for a point with previous position
    [pp] and current position [cp]. *)
Definition collision_query (self : t) (time : Q)
    (pp cp : PointOnSphere)
    (prev_id : option Z) (prev_boundary : option ResolvedTopology)
    (curr_id : option Z) (curr_boundary : option ResolvedTopology)
    : CollisionQuery :=
  {| q_rotation_model := rotation_model self;
     q_time := time;
     q_reconstruction_time_interval := reconstruction_time_interval self;
     q_prev_point := pp;
     q_curr_point := cp;
     q_prev_topology_plate_id := prev_id;
     q_prev_resolved_plate_boundary := prev_boundary;
     q_curr_topology_plate_id := curr_id;
     q_curr_resolved_plate_boundary := curr_boundary |}.

(** The policy [detect] returned [True] on the query of point [i] in the
    state [s], called on some state of the policy object that [P] holds
    of. *)
Definition removed_by (P : CS -> Prop) (self : t) (detect : Policy CS) (time : Q)
    (s : state) (i : nat) : Prop :=
  exists pp cp pb cb cs0 cs1,
    prev_points s !! i = Some (Some pp) /\
    curr_points s !! i = Some (Some cp) /\
    prev_resolved_plate_boundaries s !! i = Some pb /\
    prev_topology_plate_ids s !! i = Some (get_reconstruction_plate_id <$> pb) /\
    curr_resolved_plate_boundaries s !! i = Some cb /\
    curr_topology_plate_ids s !! i = Some (get_reconstruction_plate_id <$> cb) /\
    P cs0 /\
    detect cs0
      (collision_query self time pp cp
         (get_reconstruction_plate_id <$> pb) pb
         (get_reconstruction_plate_id <$> cb) cb) = Some (true, cs1).

(** A point recorded as removed by a collision is absent and counts as
    activated. *)
Definition removed_stay_absent (s : state) : Prop :=
  forall i, i ∈ deletedpoints s ->
    curr_points s !! i = Some None /\ point_has_been_activated s !! i = Some true.

End WithPygplates.
Arguments t {_} CS.
Arguments state {_} CS.
End ReconstructByTopologies.


(** ** A small world to run the code on

    Points live on a line of integer positions.  Plate 1 covers the
    positions from 0 to 99 except for a crack from 50 to 59, plate 20
    the positions from 100 on; the negative positions and the crack lie
    outside every plate.  The boundary between the two plates is at
    position 100.  Plate [p] moves by [p] positions per unit of time. *)

Module Toy.

Definition contains (plate : Z) (p : Z) : bool :=
  ((plate =? 1) && (0 <=? p) && (p <? 100) && negb ((50 <=? p) && (p <? 60)))
  || ((plate =? 20) && (100 <=? p)).

Definition locate (plates : list Z) (p : Z) : option Z :=
  List.find (fun plate => contains plate p) plates.

#[export] Instance world : Pygplates := {|
  PointOnSphere := Z;
  FiniteRotation := Z;
  RotationModel := unit;
  Features := unit;
  ResolvedTopology := Z;
  SubSegment := unit;
  Geometry := Z;
  Vector3D := Z;
  Raster := Z;
  get_rotation := fun _ to_time plate_id from_time =>
    plate_id * Qfloor (from_time - to_time)%Q;
  rotate := fun r p => p + r;
  resolve_topologies := fun _ _ _ => [1; 20];
  find_polygons := fun ps _ plates => locate plates <$> ps;
  find_polygons_length := fun ps _ plates => length_fmap (locate plates) ps;
  get_resolved_boundary := fun _ => 100;
  get_reconstruction_plate_id := fun plate => plate;
  get_boundary_sub_segments := fun _ => [tt];
  get_feature_type := fun _ => "gpml:SubductionZone";
  get_resolved_geometry := fun _ => 100;
  calculate_velocity := fun _ r => r;
  vsub := Z.sub;
  get_magnitude := fun v => inject_Z (Z.abs v);
  geodesic := fun p g => (Z.abs (p - g) # 1000)%Q;
  read_netcdf_grid := fun _ time => 50 + Qfloor time;
  sample := fun raster p => if raster <=? p then 1%Q else 0%Q
|}.

(** Ten steps of one unit of time from 10 Ma to the present. *)
Definition engine (pts : list Z) (detect : option (Policy DefaultCollision.t))
    : result (ReconstructByTopologies.t DefaultCollision.t) :=
  ReconstructByTopologies.__init__ tt tt 10 0 1 pts None None None detect.

(** The same with a fallback plate ID for each point. *)
Definition engine_with_plate_ids (pts : list Z) (plate_ids : list Z)
    (detect : option (Policy DefaultCollision.t))
    : result (ReconstructByTopologies.t DefaultCollision.t) :=
  ReconstructByTopologies.__init__ tt tt 10 0 1 pts None None (Some plate_ids) detect.

Definition default_collision : DefaultCollision.t :=
  DefaultCollision.__init__ DefaultCollision.DEFAULT_GLOBAL_COLLISION_PARAMETERS None.

(** The engine that [__init__] builds for ten steps of one unit of time
    from 10 Ma to the present, with no restriction on the times of the
    points. *)
Definition make (pts : list Z) (plate_ids : list Z)
    (detect : option (Policy DefaultCollision.t))
    : ReconstructByTopologies.t DefaultCollision.t :=
  {| ReconstructByTopologies.rotation_model := tt;
     ReconstructByTopologies.topology_features := tt;
     ReconstructByTopologies.reconstruction_begin_time := 10;
     ReconstructByTopologies.reconstruction_end_time := 0;
     ReconstructByTopologies.reconstruction_time_step := (-1 # 1)%Q;
     ReconstructByTopologies.reconstruction_time_interval := 1;
     ReconstructByTopologies.num_times := 11;
     ReconstructByTopologies.last_time_index := 10;
     ReconstructByTopologies.points := pts;
     ReconstructByTopologies.num_points := length pts;
     ReconstructByTopologies.point_begin_times := replicate (length pts) PosInf;
     ReconstructByTopologies.point_end_times := replicate (length pts) NegInf;
     ReconstructByTopologies.point_plate_ids := plate_ids;
     ReconstructByTopologies.detect_collisions := detect |}.

(** Three points: one next to the boundary of the two plates, one in the
    crack, one inside plate 1; collisions are detected by the default
    policy. *)
Definition demo : ReconstructByTopologies.t DefaultCollision.t :=
  make [99; -5; 30] [0; 0; 0] (Some DefaultCollision.__call__).

(** The same points with fallback plate IDs and no collision detection. *)
Definition demo_off : ReconstructByTopologies.t DefaultCollision.t :=
  make [99; -5; 30] [1; 7; 1] None.

(** One point that plate 1 carries into the crack at the second step. *)
Definition demo_crack : ReconstructByTopologies.t DefaultCollision.t :=
  make [48] [7] None.

(** The engine for a given valid time range of each point. *)
Definition make_windowed (pts : list Z) (begin_times end_times : list xtime)
    (detect : option (Policy DefaultCollision.t))
    : ReconstructByTopologies.t DefaultCollision.t :=
  {| ReconstructByTopologies.rotation_model := tt;
     ReconstructByTopologies.topology_features := tt;
     ReconstructByTopologies.reconstruction_begin_time := 10;
     ReconstructByTopologies.reconstruction_end_time := 0;
     ReconstructByTopologies.reconstruction_time_step := (-1 # 1)%Q;
     ReconstructByTopologies.reconstruction_time_interval := 1;
     ReconstructByTopologies.num_times := 11;
     ReconstructByTopologies.last_time_index := 10;
     ReconstructByTopologies.points := pts;
     ReconstructByTopologies.num_points := length pts;
     ReconstructByTopologies.point_begin_times := begin_times;
     ReconstructByTopologies.point_end_times := end_times;
     ReconstructByTopologies.point_plate_ids := replicate (length pts) 0;
     ReconstructByTopologies.detect_collisions := detect |}.

(** One point inside plate 1, valid from 10 Ma to 9 Ma. *)
Definition demo_window : ReconstructByTopologies.t DefaultCollision.t :=
  make_windowed [30] [Fin 10] [Fin 9] (Some DefaultCollision.__call__).

(** Three points: one next to the boundary of the two plates, one
    inside plate 1 that is valid until 10 Ma, and one inside plate 1 that
    is valid from 5 Ma on. *)
Definition demo_mixed : ReconstructByTopologies.t DefaultCollision.t :=
  make_windowed [99; 30; 30] [PosInf; PosInf; Fin 5] [NegInf; Fin 10; NegInf]
    (Some DefaultCollision.__call__).

(** A point that moved from position 99 on plate 1 to position 100 on
    plate 20 between 10 Ma and 9 Ma. *)
Definition crossing : CollisionQuery :=
  {| q_rotation_model := tt; q_time := 9; q_reconstruction_time_interval := 1;
     q_prev_point := 99; q_curr_point := 100;
     q_prev_topology_plate_id := Some 1;
     q_prev_resolved_plate_boundary := Some 1;
     q_curr_topology_plate_id := Some 20;
     q_curr_resolved_plate_boundary := Some 20 |}.

(** A continental policy with no chained policy; the grid of time [t]
    marks the positions from [50 + t] on as continental. *)
Definition continent_only : ContinentCollision.t unit :=
  ContinentCollision.__init__ "grids/continent_mask_{:0.2f}Ma.nc" None tt.



End Toy.

(** ** A world with several rotation models

    The small world again, where the rotation model is the speed of the
    plates: under the model [m], plate [p] moves by [m * p] positions
    per unit of time. *)

Module Drift.

Definition world : Pygplates := {|
  PointOnSphere := Z;
  FiniteRotation := Z;
  RotationModel := Z;
  Features := unit;
  ResolvedTopology := Z;
  SubSegment := unit;
  Geometry := Z;
  Vector3D := Z;
  Raster := Z;
  get_rotation := fun model to_time plate_id from_time =>
    model * plate_id * Qfloor (from_time - to_time)%Q;
  rotate := fun r p => p + r;
  resolve_topologies := fun _ _ _ => [1; 20];
  find_polygons := fun ps _ plates => Toy.locate plates <$> ps;
  find_polygons_length := fun ps _ plates => length_fmap (Toy.locate plates) ps;
  get_resolved_boundary := fun _ => 100;
  get_reconstruction_plate_id := fun plate => plate;
  get_boundary_sub_segments := fun _ => [tt];
  get_feature_type := fun _ => "gpml:SubductionZone";
  get_resolved_geometry := fun _ => 100;
  calculate_velocity := fun _ r => r;
  vsub := Z.sub;
  get_magnitude := fun v => inject_Z (Z.abs v);
  geodesic := fun p g => (Z.abs (p - g) # 1000)%Q;
  read_netcdf_grid := fun _ time => 50 + Qfloor time;
  sample := fun raster p => if raster <=? p then 1%Q else 0%Q
|}.

(** A point that moved from position 99 on plate 1 to position 100 on
    plate 20 between 10 Ma and 9 Ma, queried under the rotation model
    [model]. *)
Definition crossing (model : Z) : @CollisionQuery world :=
  {| q_rotation_model := model : @RotationModel world;
     q_time := 9; q_reconstruction_time_interval := 1;
     q_prev_point := 99 : @PointOnSphere world;
     q_curr_point := 100 : @PointOnSphere world;
     q_prev_topology_plate_id := Some 1;
     q_prev_resolved_plate_boundary := Some (1 : @ResolvedTopology world);
     q_curr_topology_plate_id := Some 20;
     q_curr_resolved_plate_boundary := Some (20 : @ResolvedTopology world) |}.


End Drift.

(** ** A world without cracks

    One plate, of ID 1, covers every position and moves by one position
    per unit of time. *)

Module Pangea.

Definition world : Pygplates := {|
  PointOnSphere := Z;
  FiniteRotation := Z;
  RotationModel := unit;
  Features := unit;
  ResolvedTopology := Z;
  SubSegment := unit;
  Geometry := Z;
  Vector3D := Z;
  Raster := Z;
  get_rotation := fun _ to_time plate_id from_time =>
    plate_id * Qfloor (from_time - to_time)%Q;
  rotate := fun r p => p + r;
  resolve_topologies := fun _ _ _ => [1];
  find_polygons := fun ps _ plates => (fun _ => Some (List.hd 1 plates)) <$> ps;
  find_polygons_length := fun ps _ plates =>
    length_fmap (fun _ => Some (List.hd 1 plates)) ps;
  get_resolved_boundary := fun _ => 0;
  get_reconstruction_plate_id := fun plate => plate;
  get_boundary_sub_segments := fun _ => [tt];
  get_feature_type := fun _ => "gpml:SubductionZone";
  get_resolved_geometry := fun _ => 0;
  calculate_velocity := fun _ r => r;
  vsub := Z.sub;
  get_magnitude := fun v => inject_Z (Z.abs v);
  geodesic := fun p g => (Z.abs (p - g) # 1000)%Q;
  read_netcdf_grid := fun _ time => 50 + Qfloor time;
  sample := fun raster p => if raster <=? p then 1%Q else 0%Q
|}.

End Pangea.

(** * Properties *)

(** ** Comparisons on rationals *)

Lemma Qgt_bool_true a b : Qgt_bool a b = true <-> (b < a)%Q.
Proof.
  unfold Qgt_bool. rewrite negb_true_iff. split.
  - intros Hn. apply Qnot_le_lt. intros Hle. apply Qle_bool_iff in Hle. congruence.
  - intros Hlt. destruct (Qle_bool a b) eqn:E; [|done].
    apply Qle_bool_iff in E. lra.
Qed.

Lemma Qgt_bool_false a b : Qgt_bool a b = false <-> (a <= b)%Q.
Proof. unfold Qgt_bool. rewrite negb_false_iff. apply Qle_bool_iff. Qed.

Lemma Qle_bool_false a b : Qle_bool a b = false <-> (b < a)%Q.
Proof.
  split.
  - intros Hn. apply Qnot_le_lt. intros Hle. apply Qle_bool_iff in Hle. congruence.
  - intros Hlt. destruct (Qle_bool a b) eqn:E; [|done].
    apply Qle_bool_iff in E. lra.
Qed.

(** ** Construction of the engine *)

Section Construction.
Context `{Pygplates} {CS : Type}.
Import ReconstructByTopologies.

Lemma signed_step_abs b e i :
  (0 < i)%Q -> (Qabs (signed_step b e i) == i)%Q.
Proof.
  intros Hi. unfold signed_step. destruct (Qgt_bool b e).
  - rewrite Qabs_opp. apply Qabs_pos. lra.
  - apply Qabs_pos. lra.
Qed.

Lemma signed_step_sign b e i :
  (0 < i)%Q ->
  ((b < e)%Q -> (0 < signed_step b e i)%Q) /\
  ((e < b)%Q -> (signed_step b e i < 0)%Q).
Proof.
  intros Hi. unfold signed_step. destruct (Qgt_bool b e) eqn:E.
  - apply Qgt_bool_true in E. split; intros; lra.
  - apply Qgt_bool_false in E. split; intros; lra.
Qed.

Lemma span_over_step_nonneg b e i :
  (0 < i)%Q -> (0 <= (e - b) / signed_step b e i)%Q.
Proof.
  intros Hi. unfold signed_step. destruct (Qgt_bool b e) eqn:E.
  - apply Qgt_bool_true in E.
    assert (Hx : ((e - b) / - i == (b - e) / i)%Q) by (field; lra).
    rewrite Hx. apply Qle_shift_div_l; lra.
  - apply Qgt_bool_false in E. apply Qle_shift_div_l; lra.
Qed.

Lemma count_times_ge_1 b e i :
  (0 < i)%Q -> 1 <= count_times b e (signed_step b e i).
Proof.
  intros Hi. unfold count_times.
  pose proof (span_over_step_nonneg b e i Hi) as Hr.
  assert (0 <= Qfloor ((1 # 1000000) + (e - b) / signed_step b e i)%Q).
  { change 0 with (Qfloor 0). apply Qfloor_resp_le. lra. }
  lia.
Qed.

Lemma count_times_empty_span b e i :
  (0 < i)%Q -> (e == b)%Q -> count_times b e (signed_step b e i) = 1.
Proof.
  intros Hi Heq. unfold count_times.
  assert (Hs : ~ (signed_step b e i == 0)%Q).
  { unfold signed_step. destruct (Qgt_bool b e); lra. }
  rewrite (Qfloor_comp _ (1 # 1000000)%Q); [reflexivity|].
  assert (Hx : (e - b == 0)%Q) by lra.
  unfold Qdiv. setoid_rewrite Hx. field. exact Hs.
Qed.

Lemma per_point_ok {A : Type} (given : option (list A)) dflt n msg l :
  per_point given dflt n msg = Ok l ->
  l = default (replicate n dflt) given /\ length l = n.
Proof.
  unfold per_point. destruct given as [l'|]; simpl.
  - case_decide; [|discriminate]. intros [= <-]. done.
  - intros [= <-]. split; [done|]. apply length_replicate.
Qed.


Lemma init_ok_inv rm f b e i pts bts ets ids (d : option (Policy CS)) self :
  __init__ rm f b e i pts bts ets ids d = Ok self ->
  (0 < i)%Q /\
  let n0 := count_times b e (signed_step b e i) in
  num_times self = (if decide (n0 = 1) then 2 else n0) /\
  last_time_index self = num_times self - 1 /\
  reconstruction_time_step self =
    (if decide (n0 = 1) then (e - b)%Q else signed_step b e i) /\
  reconstruction_begin_time self = b /\
  reconstruction_end_time self = e /\
  points self = pts /\
  num_points self = length pts /\
  point_begin_times self = default (replicate (length pts) PosInf) bts /\
  point_end_times self = default (replicate (length pts) NegInf) ets /\
  point_plate_ids self = default (replicate (length pts) 0) ids /\
  length (point_begin_times self) = length pts /\
  length (point_end_times self) = length pts /\
  length (point_plate_ids self) = length pts /\
  detect_collisions self = d /\
  rotation_model self = rm /\
  topology_features self = f.
Proof.
  unfold __init__. destruct (Qle_bool i 0) eqn:Hi; [discriminate|].
  apply Qle_bool_false in Hi.
  destruct (per_point bts _ _ _) as [l1|] eqn:E1; [|discriminate].
  destruct (per_point ets _ _ _) as [l2|] eqn:E2; [|discriminate].
  destruct (per_point ids _ _ _) as [l3|] eqn:E3; [|discriminate].
  apply per_point_ok in E1 as [-> L1], E2 as [-> L2], E3 as [-> L3].
  intros [= <-]. simpl. repeat split; done.
Qed.

(** C5.  The number of sample times is
    [1 + floor(1e-6 + (end - begin) / step)] for the signed step whose
    magnitude is the given interval and whose sign is that of
    [end - begin]; a count of 1 is replaced by 2 and the step then
    becomes the whole span [end - begin].  The step the engine keeps
    has the sign of [end - begin] in every case. *)
Theorem sample_time_count rm f b e i pts bts ets ids (d : option (Policy CS)) self :
  __init__ rm f b e i pts bts ets ids d = Ok self ->
  let step0 := signed_step b e i in
  let n0 := count_times b e step0 in
  (Qabs step0 == i)%Q /\
  ((b < e)%Q -> (0 < step0)%Q) /\
  ((e < b)%Q -> (step0 < 0)%Q) /\
  n0 = 1 + Qfloor ((1 # 1000000) + (e - b) / step0)%Q /\
  num_times self = (if decide (n0 = 1) then 2 else n0) /\
  reconstruction_time_step self =
    (if decide (n0 = 1) then (e - b)%Q else step0) /\
  ((0 < e - b)%Q <-> (0 < reconstruction_time_step self)%Q) /\
  ((e - b < 0)%Q <-> (reconstruction_time_step self < 0)%Q).
Proof.
  intros Hinit. cbv zeta.
  destruct (init_ok_inv _ _ _ _ _ _ _ _ _ _ _ Hinit)
    as (Hi & Hn & _ & Hstep & _).
  cbv zeta in Hn, Hstep.
  destruct (signed_step_sign b e i Hi) as [Hpos Hneg].
  split; [by apply signed_step_abs|].
  split; [done|]. split; [done|]. split; [done|].
  split; [done|]. split; [done|].
  rewrite Hstep.
  destruct (decide (count_times b e (signed_step b e i) = 1)) as [E1|E1].
  - tauto.
  - assert (Hne : ~ (e == b)%Q).
    { intros Heq. apply E1. by apply count_times_empty_span. }
    split; split; intros Hlt.
    + apply Hpos. lra.
    + destruct (Qlt_le_dec b e) as [?|Hle]; [lra|].
      assert (e < b)%Q by (apply Qle_lt_or_eq in Hle as [?|?]; [done|contradiction]).
      specialize (Hneg ltac:(done)). lra.
    + apply Hneg. lra.
    + destruct (Qlt_le_dec e b) as [?|Hle]; [lra|].
      assert (b < e)%Q.
      { apply Qle_lt_or_eq in Hle as [?|Heq]; [done|].
        exfalso. apply Hne. by symmetry. }
      specialize (Hpos ltac:(done)). lra.
Qed.

End Construction.

(** ** Construction on infinite and NaN times *)

Section ConstructionOnFloats.
Context `{Pygplates} {CS : Type}.
Import ReconstructByTopologies.













End ConstructionOnFloats.


(** The engine on the small world, ten steps from 10 Ma, has eleven
    sample times. *)
Lemma sample_time_count_witness :
  exists self,
    Toy.engine [99; -5; 30] None = Ok self /\
    ReconstructByTopologies.num_times self = 11.
Proof.
  eexists. split; [reflexivity|].
  pose proof (sample_time_count (H := Toy.world)
                (CS := @DefaultCollision.t Toy.world)
                tt tt 10%Q 0%Q 1%Q [99; -5; 30] None None None None _ eq_refl) as Hc.
  destruct Hc as (_ & _ & _ & _ & Hn & _). exact Hn.
Defined.

(** ** The kinematic policy *)

Section DefaultCollisionFacts.
Context `{Pygplates}.
Import DefaultCollision.

Lemma time_differs_same time : time_differs time (Some time) = false.
Proof. simpl. by rewrite Qeq_bool_refl. Qed.






End DefaultCollisionFacts.



(** ** The continental policy *)

Section ContinentCollisionFacts.
Context `{Pygplates} {CS : Type}.
Import ContinentCollision.

Lemma load_loaded (self : t CS) time :
  loaded_ok self ->
  exists raster count,
    f (load self time) = Some raster /\
    continent_deletion_count (load self time) = Some count /\
    (time_differs time (grid_time self) = true ->
     raster = read_netcdf_grid (grd_output_dir self) time /\ count = 0) /\
    (time_differs time (grid_time self) = false ->
     f self = Some raster /\ continent_deletion_count self = Some count).
Proof.
  intros Hok. unfold load.
  destruct (time_differs time (grid_time self)) eqn:E; simpl.
  - eexists _, _. repeat split; done.
  - destruct (grid_time self) as [t0|] eqn:Eg; [|done].
    destruct (Hok ltac:(eauto)) as [[c Hc] [r Hr]].
    exists r, c. repeat split; done.
Qed.

(** C9.  The policy samples the grid of the query time at the current
    point.  When the value exceeds 0.5 it returns true and its deletion
    counter (set to zero when the grid was just loaded) grows by one;
    otherwise its verdict is that of the chained policy, or false when
    none is chained. *)
Theorem continental_policy_decision (self : t CS) (q : CollisionQuery) :
  loaded_ok self ->
  exists raster count,
    f (load self (q_time q)) = Some raster /\
    continent_deletion_count (load self (q_time q)) = Some count /\
    (time_differs (q_time q) (grid_time self) = true ->
     raster = read_netcdf_grid (grd_output_dir self) (q_time q) /\ count = 0) /\
    (time_differs (q_time q) (grid_time self) = false ->
     f self = Some raster /\ continent_deletion_count self = Some count) /\
    ((1 # 2 < sample raster (q_curr_point q))%Q ->
     exists self', __call__ self q = Some (true, self') /\
                   continent_deletion_count self' = Some (count + 1)) /\
    (~ (1 # 2 < sample raster (q_curr_point q))%Q ->
     match chain_collision_detection self with
     | Some chain =>
         fst <$> __call__ self q = fst <$> chain (chain_state self) q
     | None =>
         exists self', __call__ self q = Some (false, self') /\
                       continent_deletion_count self' = Some count
     end).
Proof.
  intros Hok.
  destruct (load_loaded self (q_time q) Hok) as (raster & count & Hf & Hc & Hd & Hs).
  exists raster, count. do 4 (split; [done|]).
  unfold __call__. rewrite Hf. simpl. split.
  - intros Hgt. apply Qgt_bool_true in Hgt. rewrite Hgt, Hc. simpl.
    eexists. split; [reflexivity|]. done.
  - intros Hle.
    destruct (Qgt_bool (sample raster (q_curr_point q)) (1 # 2)) eqn:E.
    { apply Qgt_bool_true in E. contradiction. }
    assert (Hchain : chain_collision_detection (load self (q_time q))
                     = chain_collision_detection self).
    { unfold load. by destruct (time_differs _ _). }
    assert (Hcs : chain_state (load self (q_time q)) = chain_state self).
    { unfold load. by destruct (time_differs _ _). }
    rewrite Hchain, Hcs.
    destruct (chain_collision_detection self) as [chain|].
    + destruct (chain (chain_state self) q) as [[v cs]|]; done.
    + eexists. split; [reflexivity|]. done.
Qed.






End ContinentCollisionFacts.

(** On the small world the grid of 9 Ma is continental from position 59
    on: a point at position 100 is deleted and counted. *)
Lemma continental_policy_decision_witness :
  exists self',
    ContinentCollision.__call__ Toy.continent_only Toy.crossing = Some (true, self') /\
    ContinentCollision.continent_deletion_count self' = Some 1.
Proof.
  destruct (continental_policy_decision Toy.continent_only Toy.crossing)
    as (raster & count & _ & _ & Hnew & _ & Hhit & _).
  - intros [t0 Ht0]. discriminate.
  - destruct (Hnew eq_refl) as [-> ->]. apply Hhit. reflexivity.
Defined.



(** ** Loops, stores and counts *)

Lemma for_each_seq_inv {St : Type} (body : nat -> St -> option St)
    (I : nat -> St -> Prop) (len : nat) :
  forall (a : nat) (s : St),
  I a s ->
  (forall i s, (a <= i < a + len)%nat -> I i s ->
     exists s', body i s = Some s' /\ I (S i) s') ->
  exists s', for_each (seq a len) body s = Some s' /\ I (a + len)%nat s'.
Proof.
  induction len as [|len IH]; intros a s Ha Hbody.
  - exists s. rewrite Nat.add_0_r. done.
  - simpl. destruct (Hbody a s ltac:(lia) Ha) as (s1 & -> & H1). simpl.
    destruct (IH (S a) s1 H1) as (s' & Hs' & HI).
    { intros i s2 Hi. apply Hbody. lia. }
    exists s'. split; [done|].
    by replace (a + S len)%nat with (S a + len)%nat by lia.
Qed.

Lemma for_range_inv {St : Type} (body : nat -> St -> option St)
    (I : nat -> St -> Prop) (n : nat) (s : St) :
  I 0%nat s ->
  (forall i s, (i < n)%nat -> I i s ->
     exists s', body i s = Some s' /\ I (S i) s') ->
  exists s', for_range n body s = Some s' /\ I n s'.
Proof.
  intros H0 Hbody. apply (for_each_seq_inv body I n 0%nat s H0).
  intros i s1 Hi. apply Hbody. lia.
Qed.

(** A store within the bounds succeeds. *)
Lemma store_Some {A : Type} (l : list A) i v :
  (i < length l)%nat -> store l i v = Some (<[i := v]> l).
Proof. intros Hi. unfold store. by rewrite decide_True. Qed.

(** Setting a [False] entry raises the count by one. *)
Lemma count_true_insert (l : list bool) i :
  l !! i = Some false ->
  ReconstructByTopologies.count_true (<[i := true]> l)
  = S (ReconstructByTopologies.count_true l).
Proof.
  unfold ReconstructByTopologies.count_true. revert i.
  induction l as [|b l IH]; intros [|i]; simpl; try done.
  - intros [= ->]. done.
  - intros Hl. destruct b; simpl; rewrite IH; done.
Qed.

(** The count is the length exactly when every entry is [True]. *)
Lemma count_true_all (l : list bool) :
  ReconstructByTopologies.count_true l = length l <->
  forall i, (i < length l)%nat -> l !! i = Some true.
Proof.
  unfold ReconstructByTopologies.count_true.
  induction l as [|b l IH]; simpl.
  - split; [intros _ i Hi; lia|done].
  - pose proof (List.filter_length_le id l) as Hle.
    destruct b; simpl.
    + split.
      * intros Hc [|i] Hi; [done|]. simpl. apply IH; lia.
      * intros Hall. f_equal. apply IH. intros i Hi. apply (Hall (S i)). lia.
    + split; [lia|]. intros Hall. specialize (Hall 0%nat ltac:(lia)). done.
Qed.

(** [any] is false exactly when every entry is [None]. *)
Lemma any_point_false {A : Type} (l : list (option A)) :
  any_point l = false <-> forall i, (i < length l)%nat -> l !! i = Some None.
Proof.
  unfold any_point. induction l as [|o l IH]; simpl.
  - split; [intros _ i Hi; lia|done].
  - destruct o; simpl.
    + split; [done|]. intros Hall. specialize (Hall 0%nat ltac:(lia)). done.
    + rewrite IH. split.
      * intros Hall [|i] Hi; [done|]. apply Hall. lia.
      * intros Hall i Hi. apply (Hall (S i)). lia.
Qed.

Lemma store_bind {A B : Type} (l : list A) i v (k : list A -> option B) :
  (i < length l)%nat -> store l i v ≫= k = k (<[i := v]> l).
Proof. intros Hi. by rewrite store_Some. Qed.

Lemma count_true_replicate_false n :
  ReconstructByTopologies.count_true (replicate n false) = 0%nat.
Proof. unfold ReconstructByTopologies.count_true. induction n; simpl; done. Qed.

(** ** The engine, loop by loop *)

Section Engine.
Context `{Pygplates} {CS : Type}.
Import ReconstructByTopologies.
Implicit Types (self : t CS) (s : state CS).

(** A state is its own update with the values it holds. *)
Lemma state_eta s :
  s = set_activated (set_curr_points s (curr_points s))
        (point_has_been_activated s) (num_activated_points s).
Proof. by destruct s. Qed.

(** Within the bounds the test of the valid time range is [window]. *)
Lemma in_valid_time_range_window self time i :
  wf_engine self -> (i < num_points self)%nat ->
  in_valid_time_range self time i = Some (window self time i).
Proof.
  intros (_ & Hb & He & _) Hi. unfold in_valid_time_range, window.
  destruct (lookup_lt_is_Some_2 (point_begin_times self) i ltac:(lia)) as [bt ->].
  destruct (lookup_lt_is_Some_2 (point_end_times self) i ltac:(lia)) as [et ->].
  simpl. by destruct (xle_r time bt).
Qed.

(** [_activate_deactivate_points] returns; it writes the current
    positions, the flags and the counter only, and makes of each entry
    what [activation] says. *)
Lemma activate_deactivate_spec P self s :
  wf_engine self -> wf_state P self s ->
  exists cs fl,
    _activate_deactivate_points self s
      = Some (set_activated (set_curr_points s cs) fl (count_true fl)) /\
    length cs = num_points self /\
    length fl = num_points self /\
    forall i c a p,
      curr_points s !! i = Some c ->
      point_has_been_activated s !! i = Some a ->
      points self !! i = Some p ->
      cs !! i = Some (activation (window self (get_current_time self s) i) p c a).1 /\
      fl !! i = Some (activation (window self (get_current_time self s) i) p c a).2.
Proof.
  intros Hself Hs. unfold _activate_deactivate_points.
  set (time := get_current_time self s).
  set (n := num_points self).
  pose (I := fun (k : nat) (s' : state CS) =>
    exists cs fl,
      s' = set_activated (set_curr_points s cs) fl (count_true fl) /\
      length cs = n /\ length fl = n /\
      (forall i, (k <= i)%nat ->
         cs !! i = curr_points s !! i /\ fl !! i = point_has_been_activated s !! i) /\
      (forall i c a p, (i < k)%nat ->
         curr_points s !! i = Some c ->
         point_has_been_activated s !! i = Some a ->
         points self !! i = Some p ->
         cs !! i = Some (activation (window self time i) p c a).1 /\
         fl !! i = Some (activation (window self time i) p c a).2)).
  destruct (for_range_inv (activate_deactivate_point self time) I n s)
    as (s' & Hrun & (cs & fl & -> & Hlc & Hlf & _ & Hpt)).
  - exists (curr_points s), (point_has_been_activated s).
    split; [|split; [apply Hs|split; [apply Hs|split; [done|intros; lia]]]].
    rewrite <- (wf_counter _ _ _ Hs). apply state_eta.
  - intros k s1 Hk (cs & fl & -> & Hlc & Hlf & Hrest & Hdone).
    destruct (Hrest k ltac:(lia)) as [Hck Hfk].
    destruct (lookup_lt_is_Some_2 cs k ltac:(lia)) as [c Hc].
    destruct (lookup_lt_is_Some_2 fl k ltac:(lia)) as [a Ha].
    destruct Hself as (Hlp & Hself').
    destruct (lookup_lt_is_Some_2 (points self) k ltac:(lia)) as [p Hp].
    assert (Hself : wf_engine self) by (split; done).
    unfold activate_deactivate_point. simpl. rewrite Hc. simpl.
    assert (Hkeep : forall cs' fl' s',
      s' = set_activated (set_curr_points s cs') fl' (count_true fl') ->
      length cs' = n -> length fl' = n ->
      (forall i, i <> k -> cs' !! i = cs !! i /\ fl' !! i = fl !! i) ->
      cs' !! k = Some (activation (window self time k) p c a).1 ->
      fl' !! k = Some (activation (window self time k) p c a).2 ->
      I (S k) s').
    { intros cs' fl' s' -> Hlc' Hlf' Hother Hck' Hfk'. exists cs', fl'.
      split; [done|]. split; [done|]. split; [done|]. split.
      - intros i Hi. destruct (Hother i ltac:(lia)) as [-> ->]. apply Hrest. lia.
      - intros i c0 a0 p0 Hi Hc0 Ha0 Hp0. destruct (decide (i = k)) as [->|Hne].
        + rewrite Hck in Hc. rewrite Hfk in Ha.
          assert (c0 = c) as -> by congruence.
          assert (a0 = a) as -> by congruence.
          assert (p0 = p) as -> by congruence. done.
        + destruct (Hother i Hne) as [-> ->]. apply Hdone; [lia|done..]. }
    rewrite (in_valid_time_range_window self time k Hself Hk).
    destruct c as [x|]; simpl.
    + destruct (window self time k) eqn:Ew.
      * eexists. split; [reflexivity|]. by apply (Hkeep cs fl).
      * rewrite store_bind by lia.
        eexists. split; [reflexivity|].
        apply (Hkeep (<[k:=None]> cs) fl).
        -- reflexivity.
        -- by rewrite length_insert.
        -- done.
        -- intros i Hne. by rewrite list_lookup_insert_ne.
        -- simpl. apply list_lookup_insert_eq. lia.
        -- done.
    + rewrite Ha. simpl. destruct a.
      * eexists. split; [reflexivity|]. by apply (Hkeep cs fl).
      * destruct (window self time k) eqn:Ew.
        -- rewrite Hp. simpl. rewrite !store_bind by lia.
           eexists. split; [reflexivity|].
           apply (Hkeep (<[k:=Some p]> cs) (<[k:=true]> fl)).
           ++ simpl. f_equal. rewrite (count_true_insert fl k Ha). lia.
           ++ by rewrite length_insert.
           ++ by rewrite length_insert.
           ++ intros i Hne. by rewrite !list_lookup_insert_ne.
           ++ simpl. apply list_lookup_insert_eq. lia.
           ++ simpl. apply list_lookup_insert_eq. lia.
        -- eexists. split; [reflexivity|]. by apply (Hkeep cs fl).
  - exists cs, fl. split; [done|]. split; [done|]. split; [done|].
    intros i c a p Hc Ha Hp. apply Hpt; try done.
    apply lookup_lt_Some in Hc. destruct Hs. lia.
Qed.

Lemma next_points_eta s : s = set_next_points s (next_points s).
Proof. by destruct s. Qed.

(** The cache of a step holds what the rotation model returns. *)
Lemma stage_rotation_for_spec self time dict plate_id :
  (forall id r, dict !! id = Some r ->
     r = get_rotation (rotation_model self)
           (time + reconstruction_time_step self)%Q id time) ->
  exists dict',
    stage_rotation_for self time dict plate_id
      = (get_rotation (rotation_model self)
           (time + reconstruction_time_step self)%Q plate_id time, dict') /\
    (forall id r, dict' !! id = Some r ->
       r = get_rotation (rotation_model self)
             (time + reconstruction_time_step self)%Q id time).
Proof.
  intros Hd. unfold stage_rotation_for.
  destruct (dict !! plate_id) as [r|] eqn:E.
  - exists dict. by rewrite (Hd _ _ E).
  - eexists. split; [reflexivity|]. intros id r. rewrite lookup_insert.
    case_decide as Hid; [|by apply Hd]. intros [= <-]. by subst.
Qed.

Local Arguments stage_rotation_for : simpl never.

(** The first loop of [reconstruct_to_next_time] returns; it writes
    [next_points] only, and leaves there what [next_position] says. *)
Lemma reconstruct_points_spec P self s time :
  wf_engine self -> wf_state P self s ->
  exists ns dict,
    for_range (num_points self) (reconstruct_point self time) (s, ∅)
      = Some (set_next_points s ns, dict) /\
    length ns = num_points self /\
    forall i c plate_id stale,
      curr_points s !! i = Some c ->
      curr_topology_plate_ids s !! i = Some plate_id ->
      next_points s !! i = Some stale ->
      ns !! i = Some (next_position self time c plate_id stale).
Proof.
  intros Hself Hs. set (n := num_points self).
  pose (I := fun (k : nat) (acc : state CS * gmap Z FiniteRotation) =>
    exists ns,
      acc.1 = set_next_points s ns /\
      length ns = n /\
      (forall i, (k <= i)%nat -> ns !! i = next_points s !! i) /\
      (forall i c plate_id stale, (i < k)%nat ->
         curr_points s !! i = Some c ->
         curr_topology_plate_ids s !! i = Some plate_id ->
         next_points s !! i = Some stale ->
         ns !! i = Some (next_position self time c plate_id stale)) /\
      (forall id r, acc.2 !! id = Some r ->
         r = get_rotation (rotation_model self)
               (time + reconstruction_time_step self)%Q id time)).
  destruct (for_range_inv (reconstruct_point self time) I n (s, ∅))
    as ([s' dict] & Hrun & (ns & Hs' & Hln & _ & Hpt & _)).
  - exists (next_points s). simpl.
    split; [apply next_points_eta|]. split; [apply Hs|]. split; [done|].
    split; [intros; lia|]. intros id r. by rewrite lookup_empty.
  - intros k [s1 dict] Hk (ns & Hs1 & Hln & Hrest & Hdone & Hdict).
    simpl in Hs1, Hdict. subst s1.
    destruct (lookup_lt_is_Some_2 (curr_points s) k) as [c Hc].
    { rewrite (wf_curr_points _ _ _ Hs). done. }
    destruct (lookup_lt_is_Some_2 (curr_topology_plate_ids s) k) as [pid Hpid].
    { rewrite (wf_curr_ids _ _ _ Hs). done. }
    destruct (lookup_lt_is_Some_2 (point_plate_ids self) k) as [fallback Hfb].
    { destruct Hself as (_ & _ & _ & ->). done. }
    destruct (lookup_lt_is_Some_2 ns k ltac:(lia)) as [stale Hstale].
    assert (Hstale0 : next_points s !! k = Some stale).
    { rewrite <- Hrest by lia. done. }
    assert (Hkeep : forall ns' dict' acc',
      acc' = (set_next_points s ns', dict') ->
      length ns' = n ->
      (forall i, i <> k -> ns' !! i = ns !! i) ->
      ns' !! k = Some (next_position self time c pid stale) ->
      (forall id r, dict' !! id = Some r ->
         r = get_rotation (rotation_model self)
               (time + reconstruction_time_step self)%Q id time) ->
      I (S k) acc').
    { intros ns' dict' acc' -> Hln' Hother Hk' Hdict'. exists ns'. simpl.
      split; [done|]. split; [done|]. split.
      { intros i Hi. rewrite Hother by lia. apply Hrest. lia. }
      split; [|done].
      intros i c0 pid0 st0 Hi Hc0 Hpid0 Hst0. destruct (decide (i = k)) as [->|Hne].
      + assert (c0 = c) as -> by congruence.
        assert (pid0 = pid) as -> by congruence.
        assert (st0 = stale) as -> by congruence. done.
      + rewrite Hother by done. apply Hdone; [lia|done..]. }
    unfold reconstruct_point. simpl. rewrite Hc. simpl.
    destruct c as [p|].
    + rewrite Hpid. simpl. destruct pid as [id|].
      * destruct (stage_rotation_for_spec self time dict id Hdict)
          as (dict' & -> & Hdict').
        rewrite store_bind by lia.
        eexists. split; [reflexivity|].
        apply (Hkeep (<[k:=Some (rotate (get_rotation (rotation_model self)
                 (time + reconstruction_time_step self)%Q id time) p)]> ns) dict').
        -- reflexivity.
        -- by rewrite length_insert.
        -- intros i Hne. by rewrite list_lookup_insert_ne.
        -- simpl. apply list_lookup_insert_eq. lia.
        -- done.
      * rewrite Hfb. simpl. eexists. split; [reflexivity|].
        by apply (Hkeep ns dict).
    + rewrite store_bind by lia.
      eexists. split; [reflexivity|].
      apply (Hkeep (<[k:=None]> ns) dict).
      * reflexivity.
      * by rewrite length_insert.
      * intros i Hne. by rewrite list_lookup_insert_ne.
      * simpl. apply list_lookup_insert_eq. lia.
      * done.
  - simpl in Hs'. subst s'. exists ns, dict. split; [done|]. split; [done|].
    intros i c pid st Hc Hpid Hst. apply Hpt; try done.
    apply lookup_lt_Some in Hc. rewrite (wf_curr_points _ _ _ Hs) in Hc. done.
Qed.

Lemma curr_topology_eta s :
  s = set_curr_topology s (curr_topology_plate_ids s) (curr_resolved_plate_boundaries s).
Proof. by destruct s. Qed.

(** The position of an active point among the active points. *)
Lemma valid_index_lt {A : Type} (l : list (option A)) i p :
  l !! i = Some (Some p) ->
  (length (omap id (take i l)) < length (omap id l))%nat.
Proof.
  intros Hl. rewrite <- (take_drop_middle l i (Some p) Hl) at 2.
  rewrite omap_app, length_app. simpl. lia.
Qed.

(** The first loop of the membership resolution collects the active
    points in their order and gives each its position among them. *)
Lemma index_valid_points_spec s n :
  length (curr_points s) = n ->
  exists indices,
    for_range n (index_valid_point s) ([], replicate n None)
      = Some (omap id (curr_points s), indices) /\
    length indices = n /\
    forall i p, curr_points s !! i = Some (Some p) ->
      indices !! i = Some (Some (length (omap id (take i (curr_points s))))).
Proof.
  intros Hn.
  pose (I := fun (k : nat) (acc : list PointOnSphere * list (option nat)) =>
    acc.1 = omap id (take k (curr_points s)) /\
    length acc.2 = n /\
    forall i p, (i < k)%nat -> curr_points s !! i = Some (Some p) ->
      acc.2 !! i = Some (Some (length (omap id (take i (curr_points s)))))).
  destruct (for_range_inv (index_valid_point s) I n ([], replicate n None))
    as ([valid indices] & Hrun & (Hv & Hl & Hpt)).
  - split; [done|]. split; [apply length_replicate|]. intros; lia.
  - intros k [valid indices] Hk (Hv & Hl & Hpt). simpl in Hv, Hl, Hpt. subst valid.
    destruct (lookup_lt_is_Some_2 (curr_points s) k ltac:(lia)) as [c Hc].
    unfold index_valid_point. rewrite Hc. simpl. destruct c as [p|].
    + rewrite store_bind by lia. eexists. split; [reflexivity|].
      split; [|split]; simpl.
      * rewrite (take_S_r _ _ _ Hc), omap_app. done.
      * by rewrite length_insert.
      * intros i p0 Hi Hci. destruct (decide (i = k)) as [->|Hne].
        -- apply list_lookup_insert_eq. lia.
        -- rewrite list_lookup_insert_ne by done. apply (Hpt i p0); [lia|done].
    + eexists. split; [reflexivity|]. split; [|split]; simpl.
      * rewrite (take_S_r _ _ _ Hc), omap_app. simpl. by rewrite app_nil_r.
      * done.
      * intros i p0 Hi Hci. destruct (decide (i = k)) as [->|Hne]; [congruence|].
        apply (Hpt i p0); [lia|done].
  - simpl in Hv, Hl, Hpt. exists indices. split; [|split; [done|]].
    + rewrite Hrun, Hv. rewrite take_ge by lia. done.
    + intros i p Hc. apply (Hpt i p); [|done]. apply lookup_lt_Some in Hc. lia.
Qed.

(** The second loop gives each active point the polygon found for it
    and the plate ID of that polygon, and clears the entries of the
    inactive points. *)
Lemma locate_points_spec s n found indices :
  length (curr_points s) = n ->
  length (curr_topology_plate_ids s) = n ->
  length (curr_resolved_plate_boundaries s) = n ->
  length found = length (omap id (curr_points s)) ->
  (forall i p, curr_points s !! i = Some (Some p) ->
     indices !! i = Some (Some (length (omap id (take i (curr_points s)))))) ->
  exists ids bs,
    for_range n (locate_point found indices) s = Some (set_curr_topology s ids bs) /\
    length ids = n /\ length bs = n /\
    forall i c, curr_points s !! i = Some c ->
      exists poly,
        bs !! i = Some poly /\
        ids !! i = Some (get_reconstruction_plate_id <$> poly) /\
        match c with
        | None => poly = None
        | Some _ => found !! length (omap id (take i (curr_points s))) = Some poly
        end.
Proof.
  intros Hn Hli Hlb Hfound Hidx.
  pose (I := fun (k : nat) (s' : state CS) =>
    exists ids bs,
      s' = set_curr_topology s ids bs /\
      length ids = n /\ length bs = n /\
      forall i c, (i < k)%nat -> curr_points s !! i = Some c ->
        exists poly,
          bs !! i = Some poly /\
          ids !! i = Some (get_reconstruction_plate_id <$> poly) /\
          match c with
          | None => poly = None
          | Some _ => found !! length (omap id (take i (curr_points s))) = Some poly
          end).
  destruct (for_range_inv (locate_point found indices) I n s)
    as (s' & Hrun & (ids & bs & -> & Hl1 & Hl2 & Hpt)).
  - exists (curr_topology_plate_ids s), (curr_resolved_plate_boundaries s).
    split; [apply curr_topology_eta|]. split; [done|]. split; [done|]. intros; lia.
  - intros k s1 Hk (ids & bs & -> & Hl1 & Hl2 & Hpt).
    destruct (lookup_lt_is_Some_2 (curr_points s) k ltac:(lia)) as [c Hc].
    assert (Hkeep : forall ids' bs' s' poly,
      s' = set_curr_topology s ids' bs' ->
      length ids' = n -> length bs' = n ->
      (forall i, i <> k -> ids' !! i = ids !! i /\ bs' !! i = bs !! i) ->
      bs' !! k = Some poly ->
      ids' !! k = Some (get_reconstruction_plate_id <$> poly) ->
      match c with
      | None => poly = None
      | Some _ => found !! length (omap id (take k (curr_points s))) = Some poly
      end ->
      I (S k) s').
    { intros ids' bs' s' poly -> Hl1' Hl2' Hother Hb Hi Hpoly. exists ids', bs'.
      split; [done|]. split; [done|]. split; [done|].
      intros i c0 Hlt Hc0. destruct (decide (i = k)) as [->|Hne].
      - assert (c0 = c) as -> by congruence. by exists poly.
      - destruct (Hother i Hne) as [-> ->]. apply Hpt; [lia|done]. }
    unfold locate_point. simpl. rewrite Hc. simpl. destruct c as [p|].
    + rewrite (Hidx k p Hc). simpl.
      pose proof (valid_index_lt _ _ _ Hc) as Hlt. rewrite <- Hfound in Hlt.
      destruct (lookup_lt_is_Some_2 found _ Hlt) as [poly Hpoly].
      rewrite Hpoly. simpl. rewrite !store_bind by lia.
      eexists. split; [reflexivity|].
      apply (Hkeep (<[k:=get_reconstruction_plate_id <$> poly]> ids)
                   (<[k:=poly]> bs) _ poly).
      * reflexivity.
      * by rewrite length_insert.
      * by rewrite length_insert.
      * intros i Hne. by rewrite !list_lookup_insert_ne.
      * apply list_lookup_insert_eq. lia.
      * apply list_lookup_insert_eq. lia.
      * done.
    + rewrite !store_bind by lia. eexists. split; [reflexivity|].
      apply (Hkeep (<[k:=None]> ids) (<[k:=None]> bs) _ None).
      * reflexivity.
      * by rewrite length_insert.
      * by rewrite length_insert.
      * intros i Hne. by rewrite !list_lookup_insert_ne.
      * apply list_lookup_insert_eq. lia.
      * simpl. apply list_lookup_insert_eq. lia.
      * done.
  - exists ids, bs. split; [done|]. split; [done|]. split; [done|].
    intros i c Hc. apply Hpt; [|done]. apply lookup_lt_Some in Hc. lia.
Qed.

(** The polygon the locator finds for the point of index [i]. *)
Lemma find_resolved_spec P self s :
  wf_state P self s ->
  exists ids bs,
    _find_resolved_topologies_containing_points self s
      = Some (set_curr_topology s ids bs) /\
    length ids = num_points self /\ length bs = num_points self /\
    forall i c, curr_points s !! i = Some c ->
      exists poly,
        bs !! i = Some poly /\
        ids !! i = Some (get_reconstruction_plate_id <$> poly) /\
        match c with
        | None => poly = None
        | Some _ =>
            let resolved :=
              resolve_topologies (topology_features self) (rotation_model self)
                (get_current_time self s) in
            find_polygons (omap id (curr_points s))
              (get_resolved_boundary <$> resolved) resolved
              !! length (omap id (take i (curr_points s))) = Some poly
        end.
Proof.
  intros Hs. unfold _find_resolved_topologies_containing_points.
  rewrite (wf_curr_points _ _ _ Hs).
  destruct (index_valid_points_spec s (num_points self) (wf_curr_points _ _ _ Hs))
    as (indices & -> & Hli & Hidx).
  simpl.
  apply locate_points_spec; try apply Hs; try done.
  apply find_polygons_length.
Qed.

Lemma collision_eta s :
  s = set_collision (set_curr_points s (curr_points s))
        (collision_state s) (deletedpoints s ++ []).
Proof. rewrite app_nil_r. by destruct s. Qed.

(** The collision loop returns; it removes the points [new], which were
    active before and after the step, appends them to [deletedpoints],
    and leaves the other positions as they are. *)
Lemma detect_all_collisions_spec P self s :
  wf_state P self s -> policy_total P (detect_collisions self) ->
  exists cs new pcs,
    detect_all_collisions self s
      = Some (set_collision (set_curr_points s cs) pcs (deletedpoints s ++ new)) /\
    length cs = num_points self /\
    P pcs /\
    (forall i, i ∈ new ->
       exists pp cp,
         prev_points s !! i = Some (Some pp) /\
         curr_points s !! i = Some (Some cp) /\
         cs !! i = Some None) /\
    (forall i, i ∉ new -> cs !! i = curr_points s !! i) /\
    (detect_collisions self = None -> new = []).
Proof.
  intros Hs Htotal. unfold detect_all_collisions.
  destruct (detect_collisions self) as [detect|] eqn:Hdetect.
  2:{ exists (curr_points s), [], (collision_state s).
      split; [f_equal; apply collision_eta|]. split; [apply Hs|]. split; [apply Hs|].
      split; [|done]. intros i Hi. by apply elem_of_nil in Hi. }
  specialize (Htotal detect eq_refl).
  set (n := num_points self). set (time := get_current_time self s).
  pose (I := fun (k : nat) (s' : state CS) =>
    exists cs new pcs,
      s' = set_collision (set_curr_points s cs) pcs (deletedpoints s ++ new) /\
      length cs = n /\ P pcs /\
      (forall i, i ∈ new ->
         (i < k)%nat /\
         exists pp cp,
           prev_points s !! i = Some (Some pp) /\
           curr_points s !! i = Some (Some cp) /\
           cs !! i = Some None) /\
      (forall i, i ∉ new -> cs !! i = curr_points s !! i)).
  destruct (for_range_inv (detect_collision_at self detect time) I n s)
    as (s' & Hrun & (cs & new & pcs & -> & Hl & HP & Hnew & Hold)).
  - exists (curr_points s), [], (collision_state s).
    split; [apply collision_eta|]. split; [apply Hs|]. split; [apply Hs|].
    split; [|done]. intros i Hi. by apply elem_of_nil in Hi.
  - intros k s1 Hk (cs & new & pcs & -> & Hl & HP & Hnew & Hold).
    assert (Hk_new : k ∉ new).
    { intros Hin. destruct (Hnew k Hin) as [Hlt _]. lia. }
    pose proof (Hold k Hk_new) as Hck.
    destruct (lookup_lt_is_Some_2 (prev_points s) k) as [pp Hpp].
    { rewrite (wf_prev_points _ _ _ Hs). done. }
    destruct (lookup_lt_is_Some_2 (curr_points s) k) as [cp Hcp].
    { rewrite (wf_curr_points _ _ _ Hs). done. }
    destruct (lookup_lt_is_Some_2 (prev_resolved_plate_boundaries s) k) as [pb Hpb].
    { rewrite (wf_prev_boundaries _ _ _ Hs). done. }
    destruct (lookup_lt_is_Some_2 (curr_resolved_plate_boundaries s) k) as [cb Hcb].
    { rewrite (wf_curr_boundaries _ _ _ Hs). done. }
    pose proof (wf_prev_topology _ _ _ Hs k pb Hpb) as Hpid.
    pose proof (wf_curr_topology _ _ _ Hs k cb Hcb) as Hcid.
    unfold detect_collision_at. simpl. rewrite Hpp, Hck, Hcp. simpl.
    assert (Hskip : I (S k)
              (set_collision (set_curr_points s cs) pcs (deletedpoints s ++ new))).
    { exists cs, new, pcs. split; [done|]. split; [done|]. split; [done|].
      split; [|done]. intros i Hi. destruct (Hnew i Hi) as [Hlt Hrest].
      split; [lia|done]. }
    destruct pp as [pp|]; [|eexists; split; [reflexivity|done]].
    destruct cp as [cp|]; [|eexists; split; [reflexivity|done]].
    rewrite Hpid, Hcid, Hpb, Hcb. simpl.
    match goal with
    | |- context [detect pcs ?q] =>
        destruct (Htotal pcs q HP) as (verdict & pcs' & Hcall & HP')
    end.
    { split; done. }
    rewrite Hcall. simpl. destruct verdict.
    + rewrite store_bind by lia. eexists. split; [reflexivity|].
      exists (<[k:=None]> cs), (new ++ [k]), pcs'.
      split; [simpl; by rewrite app_assoc|].
      split; [by rewrite length_insert|]. split; [done|]. split.
      * intros i Hi. apply elem_of_app in Hi as [Hi|Hi].
        -- destruct (Hnew i Hi) as (Hlt & pp0 & cp0 & H1 & H2 & H3).
           split; [lia|]. exists pp0, cp0. split; [done|]. split; [done|].
           rewrite list_lookup_insert_ne by lia. done.
        -- apply list_elem_of_singleton in Hi as ->. split; [lia|].
           exists pp, cp. split; [done|]. split; [done|].
           apply list_lookup_insert_eq. lia.
      * intros i Hi. rewrite not_elem_of_app in Hi. destruct Hi as [Hi1 Hi2].
        rewrite list_elem_of_singleton in Hi2.
        rewrite list_lookup_insert_ne by done. by apply Hold.
    + eexists. split; [reflexivity|].
      exists cs, new, pcs'. split; [done|]. split; [done|]. split; [done|].
      split; [|done]. intros i Hi. destruct (Hnew i Hi) as [Hlt Hrest].
      split; [lia|done].
  - exists cs, new, pcs. split; [done|]. split; [done|]. split; [done|].
    split; [|done]. intros i Hi. by destruct (Hnew i Hi) as [_ Hrest].
Qed.

(** Each phase of a step keeps the state well-formed. *)
Lemma wf_set_next_points P self s ns time :
  wf_state P self s ->
  length ns = num_points self ->
  (forall i c plate_id stale,
     curr_points s !! i = Some c ->
     curr_topology_plate_ids s !! i = Some plate_id ->
     next_points s !! i = Some stale ->
     ns !! i = Some (next_position self time c plate_id stale)) ->
  wf_state P self (set_next_points s ns).
Proof.
  intros Hs Hl Hpt. constructor; simpl; try apply Hs; try done.
  intros i p [Hp|[Hp|Hp]].
  - apply (wf_active_activated _ _ _ Hs i p). by left.
  - apply (wf_active_activated _ _ _ Hs i p). right. by left.
  - assert (Hi : (i < num_points self)%nat).
    { apply lookup_lt_Some in Hp. lia. }
    destruct (lookup_lt_is_Some_2 (curr_points s) i) as [c Hc].
    { by rewrite (wf_curr_points _ _ _ Hs). }
    destruct (lookup_lt_is_Some_2 (curr_topology_plate_ids s) i) as [pid Hpid].
    { by rewrite (wf_curr_ids _ _ _ Hs). }
    destruct (lookup_lt_is_Some_2 (next_points s) i) as [st Hst].
    { by rewrite (wf_next_points _ _ _ Hs). }
    rewrite (Hpt i c pid st Hc Hpid Hst) in Hp.
    destruct c as [x|]; [|done].
    apply (wf_active_activated _ _ _ Hs i x). right. by left.
Qed.

Lemma wf_rotate_buffers P self s :
  wf_state P self s -> wf_state P self (rotate_buffers s).
Proof.
  intros Hs. constructor; simpl; try apply Hs.
  - intros i p [Hp|[Hp|Hp]]; apply (wf_active_activated _ _ _ Hs i p); tauto.
  - pose proof (wf_time_index _ _ _ Hs). lia.
Qed.

Lemma activation_flag valid seed c a :
  (a = true -> (activation valid seed c a).2 = true) /\
  (is_Some (activation valid seed c a).1 ->
   c = None -> (activation valid seed c a).2 = true).
Proof.
  unfold activation.
  destruct c, a, valid; simpl; split; try done; intros [? ?]; done.
Qed.

Lemma wf_set_activated P self s cs fl time :
  wf_engine self -> wf_state P self s ->
  length cs = num_points self ->
  length fl = num_points self ->
  (forall i c a p,
     curr_points s !! i = Some c ->
     point_has_been_activated s !! i = Some a ->
     points self !! i = Some p ->
     cs !! i = Some (activation (window self time i) p c a).1 /\
     fl !! i = Some (activation (window self time i) p c a).2) ->
  wf_state P self (set_activated (set_curr_points s cs) fl (count_true fl)).
Proof.
  intros Hself Hs Hlc Hlf Hpt. constructor; simpl; try apply Hs; try done.
  intros i p Hany.
  assert (Hi : (i < num_points self)%nat).
  { destruct Hany as [Hp|[Hp|Hp]]; apply lookup_lt_Some in Hp.
    - by rewrite (wf_prev_points _ _ _ Hs) in Hp.
    - lia.
    - by rewrite (wf_next_points _ _ _ Hs) in Hp. }
  destruct (lookup_lt_is_Some_2 (curr_points s) i) as [c Hc].
  { by rewrite (wf_curr_points _ _ _ Hs). }
  destruct (lookup_lt_is_Some_2 (point_has_been_activated s) i) as [a Ha].
  { by rewrite (wf_activated _ _ _ Hs). }
  destruct (lookup_lt_is_Some_2 (points self) i) as [seed Hseed].
  { destruct Hself as (-> & _). done. }
  destruct (Hpt i c a seed Hc Ha Hseed) as [Hci Hfi].
  destruct (activation_flag (window self time i) seed c a) as [Hkeep Hnew].
  rewrite Hfi. f_equal.
  destruct Hany as [Hp|[Hp|Hp]].
  - apply Hkeep.
    pose proof (wf_active_activated _ _ _ Hs i p (or_introl Hp)). congruence.
  - assert (Hact : is_Some (activation (window self time i) seed c a).1).
    { exists p. congruence. }
    destruct (decide (c = None)) as [Hnone|Hsome]; [by apply Hnew|].
    apply Hkeep. destruct c as [x|]; [|done].
    pose proof (wf_active_activated _ _ _ Hs i x (or_intror (or_introl Hc))).
    congruence.
  - apply Hkeep.
    pose proof (wf_active_activated _ _ _ Hs i p (or_intror (or_intror Hp))).
    congruence.
Qed.

Lemma wf_set_curr_topology P self s ids bs :
  wf_state P self s ->
  length ids = num_points self -> length bs = num_points self ->
  (forall i c, curr_points s !! i = Some c ->
     exists poly, bs !! i = Some poly /\
                  ids !! i = Some (get_reconstruction_plate_id <$> poly)) ->
  wf_state P self (set_curr_topology s ids bs).
Proof.
  intros Hs Hli Hlb Hpt. constructor; simpl; try apply Hs; try done.
  intros i b Hb.
  destruct (lookup_lt_is_Some_2 (curr_points s) i) as [c Hc].
  { rewrite (wf_curr_points _ _ _ Hs). apply lookup_lt_Some in Hb. lia. }
  destruct (Hpt i c Hc) as (poly & Hb' & Hid). congruence.
Qed.

Lemma wf_set_collision P self s cs pcs deleted :
  wf_state P self s ->
  length cs = num_points self ->
  P pcs ->
  (forall i, cs !! i = Some None \/ cs !! i = curr_points s !! i) ->
  wf_state P self (set_collision (set_curr_points s cs) pcs deleted).
Proof.
  intros Hs Hl HP Hpt. constructor; simpl; try apply Hs; try done.
  intros i p [Hp|[Hp|Hp]].
  - apply (wf_active_activated _ _ _ Hs i p). by left.
  - destruct (Hpt i) as [Hn|Hsame]; [congruence|].
    apply (wf_active_activated _ _ _ Hs i p). right. left. congruence.
  - apply (wf_active_activated _ _ _ Hs i p). right. by right.
Qed.

(** At the end of the run a call changes nothing. *)
Lemma step_finished self s :
  finished self s = true -> reconstruct_to_next_time self s = Some (false, s).
Proof.
  unfold finished, reconstruct_to_next_time.
  destruct (bool_decide (current_time_index s = last_time_index self)); [done|].
  simpl. by intros ->.
Qed.

(** A call that makes progress, entry by entry: the buffers rotate, the
    new current position of a point is the activation of its next
    position unless the policy removes it, and its plate ID and boundary
    are resolved anew. *)
Lemma step_spec P self s :
  wf_engine self -> wf_state P self s ->
  policy_total P (detect_collisions self) ->
  finished self s = false ->
  exists s' new,
    reconstruct_to_next_time self s = Some (true, s') /\
    wf_state P self s' /\
    current_time_index s' = current_time_index s + 1 /\
    prev_points s' = curr_points s /\
    next_points s' = prev_points s /\
    prev_topology_plate_ids s' = curr_topology_plate_ids s /\
    prev_resolved_plate_boundaries s' = curr_resolved_plate_boundaries s /\
    deletedpoints s' = deletedpoints s ++ new /\
    (forall i c plate_id stale a p,
       curr_points s !! i = Some c ->
       curr_topology_plate_ids s !! i = Some plate_id ->
       next_points s !! i = Some stale ->
       point_has_been_activated s !! i = Some a ->
       points self !! i = Some p ->
       let r := activation (window self (get_current_time self s') i) p
                  (next_position self (get_current_time self s) c plate_id stale) a in
       point_has_been_activated s' !! i = Some r.2 /\
       (i ∉ new -> curr_points s' !! i = Some r.1) /\
       (i ∈ new -> curr_points s' !! i = Some None /\ is_Some r.1 /\ is_Some c)) /\
    (forall i, i ∈ new -> (i < num_points self)%nat) /\
    (forall i, (i < num_points self)%nat ->
       exists poly,
         curr_resolved_plate_boundaries s' !! i = Some poly /\
         curr_topology_plate_ids s' !! i
           = Some (get_reconstruction_plate_id <$> poly) /\
         (i ∉ new -> curr_points s' !! i = Some None -> poly = None)) /\
    (detect_collisions self = None -> new = []) /\
    (locator_total ->
     forall i p, curr_points s' !! i = Some (Some p) ->
       exists id, curr_topology_plate_ids s' !! i = Some (Some id)).
Proof.
  intros Hself Hs Htotal Hfin. unfold reconstruct_to_next_time.
  unfold finished in Hfin. apply orb_false_iff in Hfin as [-> ->].
  set (time := get_current_time self s).
  destruct (reconstruct_points_spec P self s time Hself Hs)
    as (ns & dict & -> & Hln & Hns).
  simpl.
  pose proof (wf_set_next_points P self s ns time Hs Hln Hns) as Hs1.
  pose proof (wf_rotate_buffers P self _ Hs1) as Hs2.
  set (s2 := rotate_buffers (set_next_points s ns)) in *.
  destruct (activate_deactivate_spec P self s2 Hself Hs2)
    as (cs & fl & -> & Hlc & Hlf & Hact).
  simpl.
  pose proof (wf_set_activated P self s2 cs fl _ Hself Hs2 Hlc Hlf Hact) as Hs3.
  set (s3 := set_activated (set_curr_points s2 cs) fl (count_true fl)) in *.
  destruct (find_resolved_spec P self s3 Hs3) as (ids & bs & -> & Hli & Hlb & Htop).
  simpl.
  assert (Hs4 : wf_state P self (set_curr_topology s3 ids bs)).
  { apply wf_set_curr_topology; try done.
    intros i c Hc. destruct (Htop i c Hc) as (poly & ? & ? & _). eauto. }
  set (s4 := set_curr_topology s3 ids bs) in *.
  destruct (detect_all_collisions_spec P self s4 Hs4 Htotal)
    as (cs' & new & pcs & -> & Hlc' & HP & Hnew & Hold & Hoff).
  simpl.
  eexists _, new. split; [reflexivity|].
  split.
  { apply wf_set_collision; try done.
    intros i. destruct (decide (i ∈ new)) as [Hin|Hout].
    - destruct (Hnew i Hin) as (_ & _ & _ & _ & ->). by left.
    - right. by apply Hold. }
  do 6 (split; [done|]).
  assert (Hnew_lt : forall i, i ∈ new -> (i < num_points self)%nat).
  { intros i Hin. destruct (Hnew i Hin) as (pp & _ & Hpp & _).
    apply lookup_lt_Some in Hpp. simpl in Hpp.
    by rewrite (wf_curr_points _ _ _ Hs) in Hpp. }
  split; [|split; [done|split; [|split; [done|]]]].
  - assert (Htime : get_current_time self
                      (set_collision (set_curr_points s4 cs') pcs
                         (deletedpoints s ++ new))
                    = get_current_time self s2) by reflexivity.
    rewrite Htime.
    intros i c pid st a p Hc Hpid Hst Ha Hp.
    pose proof (Hns i c pid st Hc Hpid Hst) as Hnsi.
    destruct (Hact i _ a p Hnsi Ha Hp) as [Hcsi Hfli].
    simpl. split; [exact Hfli|]. split.
    + intros Hout. rewrite (Hold i Hout). exact Hcsi.
    + intros Hin. destruct (Hnew i Hin) as (pp & cp & Hpp & Hcp & Hnone).
      simpl in Hpp, Hcp. split; [done|]. split.
      * exists cp. congruence.
      * exists pp. congruence.
  - intros i Hi.
    destruct (lookup_lt_is_Some_2 cs i ltac:(lia)) as [c Hc].
    destruct (Htop i c Hc) as (poly & Hb & Hid & Hpoly).
    exists poly. simpl. split; [done|]. split; [done|].
    intros Hout Hnone. rewrite (Hold i Hout) in Hnone. simpl in Hnone.
    assert (c = None) as -> by congruence. done.
  - intros Hloc i p Hp. simpl in Hp.
    assert (Hc : cs !! i = Some (Some p)).
    { destruct (decide (i ∈ new)) as [Hin|Hout].
      - destruct (Hnew i Hin) as (_ & _ & _ & _ & Hnone). congruence.
      - rewrite (Hold i Hout) in Hp. exact Hp. }
    destruct (Htop i _ Hc) as (poly & _ & Hid & Hfound). simpl in Hfound.
    pose proof (valid_index_lt _ _ _ Hc) as Hlt.
    match type of Hfound with
    | find_polygons ?ps ?gs ?ts !! ?k = _ =>
        destruct (Hloc ps gs ts k Hlt) as [b Hb]
    end.
    rewrite Hb in Hfound. injection Hfound as <-.
    by exists (get_reconstruction_plate_id b).
Qed.

(** [begin_reconstruction] returns a well-formed state at the first
    sample time, in which the points whose window holds that time are
    active at their seed positions. *)
Lemma begin_reconstruction_spec P self cs :
  wf_engine self -> P cs ->
  exists s0,
    begin_reconstruction self cs = Some s0 /\
    wf_state P self s0 /\
    current_time_index s0 = 0 /\
    deletedpoints s0 = [] /\
    (forall i, curr_points s0 !! i = Some None ->
       curr_topology_plate_ids s0 !! i = Some None /\
       curr_resolved_plate_boundaries s0 !! i = Some None) /\
    (forall i seed, points self !! i = Some seed ->
       let r := activation (window self (get_current_time self s0) i) seed None false in
       curr_points s0 !! i = Some r.1 /\
       point_has_been_activated s0 !! i = Some r.2) /\
    (locator_total ->
     forall i p, curr_points s0 !! i = Some (Some p) ->
       exists id, curr_topology_plate_ids s0 !! i = Some (Some id)).
Proof.
  intros Hself HP. unfold begin_reconstruction.
  set (n := num_points self).
  match goal with |- context [_activate_deactivate_points self ?x] => set (s := x) end.
  assert (Hs : wf_state P self s).
  { constructor; simpl; try apply length_replicate; try done.
    - intros i b Hb. apply lookup_replicate in Hb as [-> Hi].
      by apply lookup_replicate_2.
    - intros i b Hb. apply lookup_replicate in Hb as [-> Hi].
      by apply lookup_replicate_2.
    - intros i p [Hp|[Hp|Hp]]; apply lookup_replicate in Hp as [? _]; done.
    - by rewrite count_true_replicate_false. }
  destruct (activate_deactivate_spec P self s Hself Hs)
    as (cs1 & fl & -> & Hlc & Hlf & Hact).
  simpl.
  pose proof (wf_set_activated P self s cs1 fl _ Hself Hs Hlc Hlf Hact) as Hs1.
  set (s1 := set_activated (set_curr_points s cs1) fl (count_true fl)) in *.
  destruct (find_resolved_spec P self s1 Hs1) as (ids & bs & -> & Hli & Hlb & Htop).
  eexists. split; [reflexivity|]. split.
  { apply wf_set_curr_topology; try done.
    intros i c Hc. destruct (Htop i c Hc) as (poly & ? & ? & _). eauto. }
  split; [done|]. split; [done|]. split; [|split].
  - intros i Hnone. simpl in Hnone.
    destruct (Htop i None Hnone) as (poly & Hb & Hid & ->). done.
  - intros i seed Hseed.
    assert (Hi : (i < n)%nat).
    { apply lookup_lt_Some in Hseed. destruct Hself as (Hl & _).
      by rewrite Hl in Hseed. }
    apply (Hact i None false seed); [|by apply lookup_replicate_2|done].
    by apply lookup_replicate_2.
  - intros Hloc i p Hc. simpl in Hc.
    destruct (Htop i _ Hc) as (poly & _ & Hid & Hfound). simpl in Hfound.
    pose proof (valid_index_lt _ _ _ Hc) as Hlt.
    match type of Hfound with
    | find_polygons ?ps ?gs ?ts !! ?k = _ =>
        destruct (Hloc ps gs ts k Hlt) as [b Hb]
    end.
    rewrite Hb in Hfound. injection Hfound as <-.
    by exists (get_reconstruction_plate_id b).
Qed.

(** The tests of the code, on the counter and on [any], say [stops]. *)
Lemma finished_stops P self s :
  wf_state P self s -> finished self s = true <-> stops self s.
Proof.
  intros Hs. unfold finished, stops.
  rewrite orb_true_iff, andb_true_iff, !bool_decide_eq_true, negb_true_iff.
  rewrite (wf_counter _ _ _ Hs), <- (wf_activated _ _ _ Hs).
  rewrite count_true_all, any_point_false.
  rewrite (wf_activated _ _ _ Hs), (wf_curr_points _ _ _ Hs). done.
Qed.

Lemma finished_not_stops P self s :
  wf_state P self s -> finished self s = false <-> ~ stops self s.
Proof.
  intros Hs. rewrite <- (finished_stops P self s Hs).
  destruct (finished self s); split; done.
Qed.

(** Every call of [reconstruct_to_next_time] on a well-formed state
    returns, and the state stays well-formed. *)
Lemma step_total P self s :
  wf_engine self -> wf_state P self s ->
  policy_total P (detect_collisions self) ->
  exists r,
    reconstruct_to_next_time self s = Some r /\
    wf_state P self r.2 /\
    r.1 = negb (finished self s) /\
    (r.1 = false -> r.2 = s).
Proof.
  intros Hself Hs Htotal. destruct (finished self s) eqn:Hfin.
  - exists (false, s). by rewrite (step_finished self s Hfin).
  - destruct (step_spec P self s Hself Hs Htotal Hfin) as (s' & new & -> & Hs' & _).
    exists (true, s'). done.
Qed.

Lemma steps_wf P self :
  wf_engine self -> policy_total P (detect_collisions self) ->
  forall k s, wf_state P self s ->
  exists s', steps k self s = Some s' /\ wf_state P self s'.
Proof.
  intros Hself Htotal. induction k as [|k IH]; intros s Hs.
  - by exists s.
  - destruct (step_total P self s Hself Hs Htotal) as (r & Hr & Hwf & _).
    simpl. rewrite Hr. simpl. by apply IH.
Qed.

(** What a call that makes progress keeps, every number of calls keeps. *)
Lemma steps_invariant P self (K : state CS -> Prop) :
  wf_engine self -> policy_total P (detect_collisions self) ->
  (forall s s', wf_state P self s -> K s ->
     reconstruct_to_next_time self s = Some (true, s') -> K s') ->
  forall k s s', wf_state P self s -> K s -> steps k self s = Some s' -> K s'.
Proof.
  intros Hself Htotal Hstep. induction k as [|k IH]; intros s s' Hs HK.
  - by intros [= <-].
  - destruct (step_total P self s Hself Hs Htotal) as ([b s1] & Hr & Hwf & Hb & Hsame).
    simpl. rewrite Hr. simpl. simpl in *. apply IH; [done|].
    destruct b; [exact (Hstep s s1 Hs HK Hr)|]. by rewrite Hsame by done.
Qed.

Lemma advance_wf P self cs k :
  wf_engine self -> P cs -> policy_total P (detect_collisions self) ->
  exists s, advance k self cs = Some s /\ wf_state P self s.
Proof.
  intros Hself HP Htotal. unfold advance.
  destruct (begin_reconstruction_spec P self cs Hself HP) as (s0 & -> & Hs0 & _).
  simpl. by apply steps_wf.
Qed.

Lemma steps_add self k j s :
  steps (k + j) self s = steps k self s ≫= steps j self.
Proof.
  revert s. induction k as [|k IH]; intros s; simpl; [done|].
  destruct (reconstruct_to_next_time self s) as [r|]; simpl; [apply IH|done].
Qed.

(** The loop returns within the remaining sample times, at the first
    state that stops. *)
Lemma reconstruct_loop_spec P self :
  wf_engine self -> policy_total P (detect_collisions self) ->
  forall m s fuel,
    wf_state P self s ->
    current_time_index s <= last_time_index self ->
    (Z.to_nat (last_time_index self - current_time_index s) <= m)%nat ->
    (m < fuel)%nat ->
    exists k s',
      steps k self s = Some s' /\
      stops self s' /\
      (forall j, (j < k)%nat ->
         exists sj, steps j self s = Some sj /\ ~ stops self sj) /\
      reconstruct_loop fuel self s = Some s' /\
      (k <= m)%nat /\
      current_time_index s' = current_time_index s + Z.of_nat k /\
      reconstruct_to_next_time self s' = Some (false, s').
Proof.
  intros Hself Htotal. induction m as [|m IH]; intros s fuel Hs Hle Hm Hfuel.
  - assert (Hfin : finished self s = true).
    { unfold finished. rewrite bool_decide_eq_true_2 by lia. done. }
    exists 0%nat, s. split; [done|]. split; [by apply (finished_stops P)|].
    split; [intros; lia|].
    split; [|split; [done|split; [simpl; lia|by apply step_finished]]].
    destruct fuel as [|fuel]; [lia|]. simpl.
    by rewrite (step_finished self s Hfin).
  - destruct fuel as [|fuel]; [lia|].
    destruct (finished self s) eqn:Hfin.
    + exists 0%nat, s. split; [done|]. split; [by apply (finished_stops P)|].
      split; [intros; lia|].
      split; [|split; [lia|split; [simpl; lia|by apply step_finished]]]. simpl.
      by rewrite (step_finished self s Hfin).
    + destruct (step_spec P self s Hself Hs Htotal Hfin)
        as (s1 & new & Hstep & Hs1 & Hidx & _).
      assert (Hne : current_time_index s <> last_time_index self).
      { unfold finished in Hfin. apply orb_false_iff in Hfin as [Hfin _].
        by apply bool_decide_eq_false in Hfin. }
      destruct (IH s1 fuel Hs1 ltac:(lia) ltac:(lia) ltac:(lia))
        as (k & s' & Hsteps & Hstops & Hbefore & Hloop & Hk & Hindex & Hlast).
      exists (S k), s'. simpl. rewrite Hstep. simpl.
      split; [done|]. split; [done|].
      split; [|split; [done|split; [lia|split; [lia|done]]]].
      intros [|j] Hj.
      * exists s. split; [done|]. by apply (finished_not_stops P).
      * simpl. rewrite Hstep. simpl. apply Hbefore. lia.
Qed.

End Engine.

(** ** The run of the engine *)

Section EngineClaims.
Context `{Pygplates} {CS : Type}.
Import ReconstructByTopologies.
Implicit Types (self : t CS) (s : state CS).

(** An engine from [__init__] has one entry per point in each array and
    at least two sample times. *)
Lemma init_wf rm f b e i pts bts ets ids (d : option (Policy CS)) self :
  __init__ rm f b e i pts bts ets ids d = Ok self ->
  wf_engine self /\ 1 <= last_time_index self.
Proof.
  intros Hinit.
  destruct (init_ok_inv _ _ _ _ _ _ _ _ _ _ _ Hinit)
    as (Hi & Hn & Hlast & _ & _ & _ & Hp & Hnp & _ & _ & _ & Hb & He & Hids & _).
  cbv zeta in Hn. split.
  - unfold wf_engine. rewrite Hnp, Hp. done.
  - rewrite Hlast, Hn. pose proof (count_times_ge_1 b e i Hi).
    case_decide; lia.
Qed.

(** The active points, each as [Some p], are the current positions
    without the absent ones, in their order. *)
Lemma active_points_filter s :
  Some <$> get_active_current_points s = filter is_Some (curr_points s).
Proof.
  unfold get_active_current_points, get_all_current_points.
  induction (curr_points s) as [|[p|] l IH]; [done|..].
  - rewrite filter_cons_True by eauto. rewrite <- IH. reflexivity.
  - rewrite filter_cons_False by (by intros [? ?]). rewrite <- IH. reflexivity.
Qed.

(** A step keeps the removed points absent. *)
Lemma removed_stay_absent_step P self s s' :
  wf_engine self -> policy_total P (detect_collisions self) ->
  wf_state P self s -> removed_stay_absent s ->
  reconstruct_to_next_time self s = Some (true, s') ->
  removed_stay_absent s'.
Proof.
  intros Hself Htotal Hs HK Hstep.
  destruct (finished self s) eqn:Hfin.
  { rewrite (step_finished self s Hfin) in Hstep. discriminate. }
  destruct (step_spec P self s Hself Hs Htotal Hfin)
    as (s1 & new & Hstep1 & Hs1 & _ & _ & _ & _ & _ & Hdel & Hpt & Hlt & _).
  assert (s1 = s') as -> by congruence.
  intros i Hi. rewrite Hdel in Hi.
  assert (Hin : (i < num_points self)%nat).
  { apply elem_of_app in Hi as [Hi|Hi]; [|by apply Hlt].
    destruct (HK i Hi) as [Hc _]. apply lookup_lt_Some in Hc.
    by rewrite (wf_curr_points _ _ _ Hs) in Hc. }
  destruct (lookup_lt_is_Some_2 (curr_points s) i) as [c Hc].
  { by rewrite (wf_curr_points _ _ _ Hs). }
  destruct (lookup_lt_is_Some_2 (curr_topology_plate_ids s) i) as [pid Hpid].
  { by rewrite (wf_curr_ids _ _ _ Hs). }
  destruct (lookup_lt_is_Some_2 (next_points s) i) as [st Hst].
  { by rewrite (wf_next_points _ _ _ Hs). }
  destruct (lookup_lt_is_Some_2 (point_has_been_activated s) i) as [a Ha].
  { by rewrite (wf_activated _ _ _ Hs). }
  destruct (lookup_lt_is_Some_2 (points self) i) as [p Hp].
  { destruct Hself as (-> & _). done. }
  destruct (Hpt i c pid st a p Hc Hpid Hst Ha Hp) as (Hflag & Hout & Hnew).
  destruct (decide (i ∈ new)) as [Hi_new|Hi_old].
  - destruct (Hnew Hi_new) as (Hnone & Hact & [x ->]).
    split; [done|]. rewrite Hflag. f_equal.
    match goal with
    | |- (activation ?v ?seed ?c ?a0).2 = true =>
        destruct (activation_flag v seed c a0) as [Hkeep _]
    end.
    apply Hkeep.
    pose proof (wf_active_activated _ _ _ Hs i x (or_intror (or_introl Hc))).
    congruence.
  - apply elem_of_app in Hi as [Hi|Hi]; [|done].
    destruct (HK i Hi) as [Hc0 Ha0].
    assert (c = None) as -> by congruence.
    assert (a = true) as -> by congruence.
    rewrite (Hout Hi_old), Hflag. done.
Qed.

(** C6.  A point that the collision policy removed (its index is in
    [deletedpoints]) has an absent current position in the state where
    it is recorded and after any number of further steps. *)
Theorem collision_is_terminal P self cs k s i j :
  wf_engine self -> P cs -> policy_total P (detect_collisions self) ->
  advance k self cs = Some s ->
  i ∈ deletedpoints s ->
  exists s', steps j self s = Some s' /\
             i ∈ deletedpoints s' /\
             curr_points s' !! i = Some None.
Proof.
  intros Hself HP Htotal Hadv Hi.
  pose (K := fun s1 : state CS =>
    removed_stay_absent s1 /\ (i ∈ deletedpoints s -> i ∈ deletedpoints s1)).
  destruct (advance_wf P self cs (k + j) Hself HP Htotal) as (s' & Hadv' & Hs').
  unfold advance in Hadv, Hadv'.
  destruct (begin_reconstruction_spec P self cs Hself HP)
    as (s0 & Hb & Hs0 & _ & Hdel0 & _).
  rewrite Hb in Hadv, Hadv'. simpl in Hadv, Hadv'.
  rewrite steps_add, Hadv in Hadv'. simpl in Hadv'.
  exists s'. split; [done|].
  assert (HK0 : removed_stay_absent s0).
  { intros i0 Hi0. rewrite Hdel0 in Hi0. by apply elem_of_nil in Hi0. }
  assert (Hstep : forall s1 s2, wf_state P self s1 -> removed_stay_absent s1 ->
            reconstruct_to_next_time self s1 = Some (true, s2) ->
            removed_stay_absent s2).
  { intros s1 s2 Hs1 HK1 Hst. by eapply removed_stay_absent_step. }
  pose proof (steps_invariant P self removed_stay_absent Hself Htotal Hstep
                k s0 s Hs0 HK0 Hadv) as HKs.
  destruct (steps_wf P self Hself Htotal k s0 Hs0) as (s_k & Hs_k & Hwf_k).
  assert (s_k = s) as -> by congruence.
  assert (Hstep' : forall s1 s2, wf_state P self s1 -> K s1 ->
            reconstruct_to_next_time self s1 = Some (true, s2) -> K s2).
  { intros s1 s2 Hs1 [HK1 Hin1] Hst. split; [by eapply removed_stay_absent_step|].
    intros Hin. specialize (Hin1 Hin).
    destruct (finished self s1) eqn:Hfin.
    { rewrite (step_finished self s1 Hfin) in Hst. discriminate. }
    destruct (step_spec P self s1 Hself Hs1 Htotal Hfin)
      as (s3 & new & Hst3 & _ & _ & _ & _ & _ & _ & Hdel & _).
    assert (s3 = s2) as -> by congruence.
    rewrite Hdel. apply elem_of_app. by left. }
  destruct (steps_invariant P self K Hself Htotal Hstep' j s s' Hwf_k
              (conj HKs (fun x => x)) Hadv') as [HK' Hin'].
  split; [by apply Hin'|]. apply HK'. by apply Hin'.
Qed.

(** C7.  [reconstruct] returns.  Its loop calls
    [reconstruct_to_next_time] until a call reports no progress, and
    ends in the state [s] reached after [k] calls that made progress:
    the first state in which the time index is the last one, or every
    point has been activated and none is active.  The time index of [s]
    is [k], a further call on [s] reports no progress and leaves it as
    it is, and [reconstruct] returns the current positions of [s]
    without the absent ones, in the order of the points. *)
Theorem reconstruct_result P self cs fuel :
  wf_engine self -> 0 <= last_time_index self ->
  P cs -> policy_total P (detect_collisions self) ->
  (Z.to_nat (last_time_index self) < fuel)%nat ->
  exists k s0 s,
    begin_reconstruction self cs = Some s0 /\
    steps k self s0 = Some s /\
    advance k self cs = Some s /\
    stops self s /\
    (forall j, (j < k)%nat ->
       exists sj, advance j self cs = Some sj /\ ~ stops self sj /\
                  exists sj', reconstruct_to_next_time self sj = Some (true, sj')) /\
    reconstruct_loop fuel self s0 = Some s /\
    current_time_index s = Z.of_nat k /\
    reconstruct_to_next_time self s = Some (false, s) /\
    reconstruct fuel self cs = Some (get_active_current_points s) /\
    Some <$> get_active_current_points s = filter is_Some (curr_points s).
Proof.
  intros Hself Hlast HP Htotal Hfuel.
  destruct (begin_reconstruction_spec P self cs Hself HP)
    as (s0 & Hb & Hs0 & Hidx & _).
  destruct (reconstruct_loop_spec P self Hself Htotal
              (Z.to_nat (last_time_index self)) s0 fuel Hs0)
    as (k & s & Hsteps & Hstops & Hbefore & Hloop & _ & Hindex & Hlast_call);
    [lia..|].
  exists k, s0, s. unfold advance, reconstruct. rewrite Hb. simpl.
  split; [done|]. split; [done|]. split; [done|]. split; [done|].
  split.
  { intros j Hj. destruct (Hbefore j Hj) as (sj & Hsj & Hnot).
    exists sj. split; [done|]. split; [done|].
    destruct (steps_wf P self Hself Htotal j s0 Hs0) as (sj1 & Hsj1 & Hwf).
    assert (sj1 = sj) as -> by congruence.
    apply (finished_not_stops P self sj Hwf) in Hnot.
    destruct (step_spec P self sj Hself Hwf Htotal Hnot) as (sj' & new & Hstep & _).
    by exists sj'. }
  split; [done|]. split; [lia|]. split; [done|].
  split; [by rewrite Hloop|]. apply active_points_filter.
Qed.

End EngineClaims.

(** The default policy returns a verdict on every query of the engine. *)
Lemma default_collision_total `{Pygplates} :
  ReconstructByTopologies.policy_total (fun _ => True) (Some DefaultCollision.__call__).
Proof.
  intros d [= <-] cs q _ [Hprev _]. unfold DefaultCollision.__call__.
  destruct (q_prev_topology_plate_id q) as [prev_id|] eqn:Ep; [|eauto].
  destruct (q_curr_topology_plate_id q) as [curr_id|]; [|eauto].
  case_decide; [eauto|].
  destruct (q_prev_resolved_plate_boundary q) as [b|]; [|done].
  destruct (DefaultCollision.velocity_stage_rotation _ _ _ prev_id) as [r1 s1].
  destruct (DefaultCollision.velocity_stage_rotation _ _ _ curr_id) as [r2 s2].
  simpl. case_decide.
  - destruct (DefaultCollision.global_collision_parameters s2). eauto.
  - eauto.
Qed.

(** ** Windows of activation *)

Section Windows.
Context `{Pygplates} {CS : Type}.
Import ReconstructByTopologies.
Implicit Types (self : t CS) (s : state CS).



(** No policy, no obligation. *)
Lemma policy_total_none P self :
  detect_collisions self = None -> policy_total P (detect_collisions self).
Proof. intros -> d Hd. discriminate. Qed.




End Windows.

(** ** Points outside every polygon *)

Section Unlocated.
Context `{Pygplates} {CS : Type}.
Import ReconstructByTopologies.
Implicit Types (self : t CS) (s : state CS).

(** What a step does to an active point outside every polygon: its new
    current position is absent, or it is the entry that the reused
    buffer [next_points] held before the step.  The fallback plate ID
    plays no part. *)
Lemma unlocated_point_takes_stale_entry P self s s' i p stale :
  wf_engine self -> wf_state P self s ->
  policy_total P (detect_collisions self) ->
  reconstruct_to_next_time self s = Some (true, s') ->
  curr_points s !! i = Some (Some p) ->
  curr_topology_plate_ids s !! i = Some None ->
  next_points s !! i = Some stale ->
  curr_points s' !! i = Some None \/ curr_points s' !! i = Some stale.
Proof.
  intros Hself Hs Htotal Hstep Hc Hid Hst.
  destruct (finished self s) eqn:Hfin.
  { rewrite (step_finished self s Hfin) in Hstep. discriminate. }
  destruct (step_spec P self s Hself Hs Htotal Hfin)
    as (s1 & new & Hstep1 & _ & _ & _ & _ & _ & _ & _ & Hpt & _).
  assert (s1 = s') as -> by congruence.
  pose proof (wf_active_activated _ _ _ Hs i p (or_intror (or_introl Hc))) as Ha.
  destruct (lookup_lt_is_Some_2 (points self) i) as [seed Hseed].
  { apply lookup_lt_Some in Hc. rewrite (wf_curr_points _ _ _ Hs) in Hc.
    destruct Hself as (-> & _). done. }
  destruct (Hpt i _ _ _ _ _ Hc Hid Hst Ha Hseed) as (_ & Hout & Hin).
  destruct (decide (i ∈ new)) as [Hi|Hi].
  - left. by destruct (Hin Hi).
  - rewrite (Hout Hi). simpl. unfold activation.
    destruct stale as [x|]; [|by left].
    destruct (window self (get_current_time self s') i); [by right|by left].
Qed.

End Unlocated.

(** ** The engine on the small world *)

Section SmallWorld.
Import ReconstructByTopologies.

(** The engines of the small world are what [__init__] builds. *)
Lemma demo_constructed :
  Toy.engine [99; -5; 30] (Some DefaultCollision.__call__) = Ok Toy.demo /\
  Toy.engine_with_plate_ids [99; -5; 30] [1; 7; 1] None = Ok Toy.demo_off.
Proof. split; reflexivity. Qed.

(** They have one entry per point in each array. *)
Lemma demo_wf : wf_engine Toy.demo /\ wf_engine Toy.demo_off.
Proof. split; (split; [|split; [|split]]); reflexivity. Qed.

(** The removals, and the position, plate ID and boundary of point 0,
    after the first step. *)
Lemma demo_first_step :
  (fun s => (deletedpoints s,
             (curr_points s !! 0%nat,
              (curr_topology_plate_ids s !! 0%nat,
               curr_resolved_plate_boundaries s !! 0%nat))))
    <$> advance 1 Toy.demo Toy.default_collision
  = Some ([0%nat], (Some None, (Some (Some 20), Some (Some 20)))).
Proof. vm_compute. reflexivity. Qed.

(** C3, as stated, fails: after the first step of the small world the
    point of index 0 has been removed by the default policy, its current
    position is absent, and its current plate ID and boundary are those
    of plate 20. *)
Lemma removed_point_keeps_plate_id :
  exists s,
    advance 1 Toy.demo Toy.default_collision = Some s /\
    curr_points s !! 0%nat = Some None /\
    curr_topology_plate_ids s !! 0%nat = Some (Some 20) /\
    curr_resolved_plate_boundaries s !! 0%nat = Some (Some 20).
Proof.
  destruct (proj1 (fmap_Some _ _ _) demo_first_step) as (s & Hadv & Heq).
  exists s. split; [exact Hadv|]. injection Heq as _ H1 H2 H3.
  split; [by symmetry|]. split; by symmetry.
Qed.

Lemma collision_is_terminal_witness :
  exists s s',
    advance 1 Toy.demo Toy.default_collision = Some s /\
    deletedpoints s = [0%nat] /\
    steps 5 Toy.demo s = Some s' /\
    curr_points s' !! 0%nat = Some None.
Proof.
  destruct (proj1 (fmap_Some _ _ _) demo_first_step) as (s & Hadv & Heq).
  injection Heq as Hdel _ _ _.
  destruct (collision_is_terminal (fun _ => True) Toy.demo Toy.default_collision
              1 s 0 5) as (s' & Hsteps & _ & Hnone).
  - apply demo_wf.
  - exact I.
  - apply default_collision_total.
  - exact Hadv.
  - rewrite <- Hdel. apply list_elem_of_here.
  - exists s, s'. split; [exact Hadv|]. split; [by symmetry|].
    split; [exact Hsteps|exact Hnone].
Defined.

(** The loop on the point with the window from 10 Ma to 9 Ma ends after
    two steps, at 8 Ma, with no position left. *)
Lemma demo_window_run :
  (fun s => (current_time_index s, curr_points s))
    <$> (begin_reconstruction Toy.demo_window Toy.default_collision
         ≫= reconstruct_loop 11 Toy.demo_window)
  = Some (2, [None]).
Proof. vm_compute. reflexivity. Qed.

Lemma reconstruct_result_witness :
  exists s0 s,
    begin_reconstruction Toy.demo_window Toy.default_collision = Some s0 /\
    reconstruct_loop 11 Toy.demo_window s0 = Some s /\
    steps 2 Toy.demo_window s0 = Some s /\
    current_time_index s = 2 /\
    last_time_index Toy.demo_window = 10 /\
    stops Toy.demo_window s /\
    reconstruct 11 Toy.demo_window Toy.default_collision = Some [].
Proof.
  destruct (reconstruct_result (fun _ => True) Toy.demo_window
              Toy.default_collision 11)
    as (k & s0 & s & Hb & Hsteps & _ & Hstops & _ & Hloop & Hindex & _ & Hrec & _).
  - split; [|split; [|split]]; reflexivity.
  - simpl. lia.
  - exact I.
  - apply default_collision_total.
  - simpl. lia.
  - destruct (proj1 (fmap_Some _ _ _) demo_window_run) as (s1 & Hrun & Heq).
    apply bind_Some in Hrun as (s0' & Hb' & Hloop').
    assert (s0' = s0) as -> by congruence.
    assert (s1 = s) as -> by congruence.
    apply pair_equal_spec in Heq as [Hidx Hcurr].
    symmetry in Hidx, Hcurr.
    assert (Hk : k = 2%nat) by lia. subst k.
    exists s0, s. split; [exact Hb|]. split; [exact Hloop|].
    split; [exact Hsteps|]. split; [exact Hidx|]. split; [reflexivity|].
    split; [exact Hstops|].
    rewrite Hrec. unfold get_active_current_points, get_all_current_points.
    by rewrite Hcurr.
Defined.

(** The point of index 1 of the small world before and after the first
    step without collision detection. *)
Lemma demo_off_first_step :
  (fun s => (curr_points s !! 1%nat,
             (curr_topology_plate_ids s !! 1%nat, get_current_time Toy.demo_off s)))
    <$> advance 0 Toy.demo_off Toy.default_collision
  = Some (Some (Some (-5)), (Some None, 10%Q)) /\
  (fun s => (curr_points s !! 1%nat,
             (deletedpoints s, get_current_time Toy.demo_off s)))
    <$> advance 1 Toy.demo_off Toy.default_collision
  = Some (Some None, ([], 9%Q)).
Proof. split; vm_compute; reflexivity. Qed.

(** C1 on the small world.  At 10 Ma the point of index 1 is active at
    position -5, in the crack outside every plate, with fallback plate
    ID 7; the stage rotation of plate 7 from 10 Ma to 9 Ma would move it
    to position 2.  After the step its current position is absent. *)
Lemma fallback_plate_rotation_skipped :
  exists s0 s1,
    advance 0 Toy.demo_off Toy.default_collision = Some s0 /\
    advance 1 Toy.demo_off Toy.default_collision = Some s1 /\
    curr_points s0 !! 1%nat = Some (Some (-5)) /\
    curr_topology_plate_ids s0 !! 1%nat = Some None /\
    point_plate_ids Toy.demo_off !! 1%nat = Some 7 /\
    rotate (get_rotation (rotation_model Toy.demo_off)
              (get_current_time Toy.demo_off s1) 7
              (get_current_time Toy.demo_off s0)) (-5) = 2 /\
    curr_points s1 !! 1%nat = Some None.
Proof.
  destruct demo_off_first_step as [H0 H1].
  apply fmap_Some in H0 as (s0 & Hadv0 & Heq0).
  apply fmap_Some in H1 as (s1 & Hadv1 & Heq1).
  apply pair_equal_spec in Heq0 as [Hc0 Heq0].
  apply pair_equal_spec in Heq0 as [Hid0 Ht0].
  apply pair_equal_spec in Heq1 as [Hc1 Heq1].
  apply pair_equal_spec in Heq1 as [_ Ht1].
  exists s0, s1. split; [exact Hadv0|]. split; [exact Hadv1|].
  split; [by symmetry|]. split; [by symmetry|]. split; [reflexivity|].
  split; [|by symmetry]. rewrite <- Ht0, <- Ht1. reflexivity.
Qed.

(** The entry that an unlocated point takes over can be a position of
    the past: the point moves from 48 to 49 and into the crack at 50,
    and the next step puts it back at 48, where it was three steps
    before. *)
Lemma stale_position_read_back :
  (fun k => curr_points <$> advance k Toy.demo_crack Toy.default_collision)
    <$> [0; 1; 2; 3]%nat
  = [Some [Some 48]; Some [Some 49]; Some [Some 50]; Some [Some 48]].
Proof. vm_compute. reflexivity. Qed.

(** C2 on the small world.  The point of index 1 has no restriction on
    its times and collisions are not detected, yet at 9 Ma, a time of
    its window, it is not active. *)
Lemma active_window_lost_in_crack :
  exists s1,
    advance 1 Toy.demo_off Toy.default_collision = Some s1 /\
    detect_collisions Toy.demo_off = None /\
    deletedpoints s1 = [] /\
    window Toy.demo_off (get_current_time Toy.demo_off s1) 1 = true /\
    curr_points s1 !! 1%nat = Some None.
Proof.
  destruct demo_off_first_step as [_ H1].
  apply fmap_Some in H1 as (s1 & Hadv1 & Heq1).
  apply pair_equal_spec in Heq1 as [Hc1 Heq1].
  apply pair_equal_spec in Heq1 as [Hdel Ht1].
  exists s1. split; [exact Hadv1|]. split; [reflexivity|].
  split; [by symmetry|]. split; [|by symmetry]. reflexivity.
Qed.

End SmallWorld.

(** ** More on the run of the engine *)

Section EngineMore.
Context `{Pygplates} {CS : Type}.
Import ReconstructByTopologies.
Implicit Types (self : t CS) (s : state CS).

(** [activation] yields a position only inside the window. *)
Lemma activation_active valid seed c a p :
  (activation valid seed c a).1 = Some p -> valid = true.
Proof. unfold activation. by destruct c, a, valid. Qed.

(** X1.  In every state of a run, whatever the policy and the polygons,
    the window of an active point holds the current time. *)
Theorem active_point_in_window (P : CS -> Prop) self cs k s i p :
  wf_engine self -> P cs -> policy_total P (detect_collisions self) ->
  advance k self cs = Some s ->
  curr_points s !! i = Some (Some p) ->
  window self (get_current_time self s) i = true.
Proof.
  intros Hself HP Htotal Hadv Hp.
  pose (J := fun s1 : state CS => forall i p,
    curr_points s1 !! i = Some (Some p) ->
    window self (get_current_time self s1) i = true).
  destruct (begin_reconstruction_spec P self cs Hself HP)
    as (s0 & Hb & Hs0 & _ & _ & _ & Hact & _).
  unfold advance in Hadv. rewrite Hb in Hadv. simpl in Hadv.
  assert (HJ0 : J s0).
  { intros i0 p0 Hc.
    destruct (lookup_lt_is_Some_2 (points self) i0) as [seed Hseed].
    { apply lookup_lt_Some in Hc. rewrite (wf_curr_points _ _ _ Hs0) in Hc.
      destruct Hself as (-> & _). done. }
    pose proof (Hact i0 seed Hseed) as Hx. cbv zeta in Hx. destruct Hx as [H1 _].
    rewrite Hc in H1. injection H1 as H1. symmetry in H1.
    apply (activation_active _ seed None false p0). exact H1. }
  assert (Hstep : forall s1 s2, wf_state P self s1 -> J s1 ->
            reconstruct_to_next_time self s1 = Some (true, s2) -> J s2).
  { intros s1 s2 Hs1 HJ1 Hstep i0 p0 Hc.
    destruct (finished self s1) eqn:Hfin.
    { rewrite (step_finished self s1 Hfin) in Hstep. discriminate. }
    destruct (step_spec P self s1 Hself Hs1 Htotal Hfin)
      as (s3 & new & Hstep3 & Hs3 & _ & _ & _ & _ & _ & _ & Hpt & _).
    assert (s3 = s2) as -> by congruence.
    assert (Hi : (i0 < num_points self)%nat).
    { apply lookup_lt_Some in Hc. by rewrite (wf_curr_points _ _ _ Hs3) in Hc. }
    destruct (lookup_lt_is_Some_2 (curr_points s1) i0) as [c Hc1].
    { by rewrite (wf_curr_points _ _ _ Hs1). }
    destruct (lookup_lt_is_Some_2 (curr_topology_plate_ids s1) i0) as [pid Hpid].
    { by rewrite (wf_curr_ids _ _ _ Hs1). }
    destruct (lookup_lt_is_Some_2 (next_points s1) i0) as [st Hst].
    { by rewrite (wf_next_points _ _ _ Hs1). }
    destruct (lookup_lt_is_Some_2 (point_has_been_activated s1) i0) as [a Ha].
    { by rewrite (wf_activated _ _ _ Hs1). }
    destruct (lookup_lt_is_Some_2 (points self) i0) as [seed Hseed].
    { destruct Hself as (-> & _). done. }
    destruct (Hpt i0 c pid st a seed Hc1 Hpid Hst Ha Hseed) as (_ & Hout & Hin).
    destruct (decide (i0 ∈ new)) as [Hi0|Hi0].
    - destruct (Hin Hi0) as [Hnone _]. congruence.
    - rewrite (Hout Hi0) in Hc. injection Hc as Hc.
      eapply activation_active. exact Hc. }
  exact (steps_invariant P self J Hself Htotal Hstep k s0 s Hs0 HJ0 Hadv i p Hp).
Qed.

(** The time index stays between 0 and the last index. *)
Lemma time_index_bounded (P : CS -> Prop) self cs k s :
  wf_engine self -> 0 <= last_time_index self ->
  P cs -> policy_total P (detect_collisions self) ->
  advance k self cs = Some s ->
  0 <= current_time_index s <= last_time_index self.
Proof.
  intros Hself Hlast HP Htotal Hadv.
  destruct (begin_reconstruction_spec P self cs Hself HP)
    as (s0 & Hb & Hs0 & Hidx & _).
  unfold advance in Hadv. rewrite Hb in Hadv. simpl in Hadv.
  apply (steps_invariant P self
           (fun s1 => 0 <= current_time_index s1 <= last_time_index self)
           Hself Htotal) with (k := k) (s := s0); [|done|lia|done].
  intros s1 s2 Hs1 Hle Hstep.
  destruct (finished self s1) eqn:Hfin.
  { rewrite (step_finished self s1 Hfin) in Hstep. discriminate. }
  destruct (step_spec P self s1 Hself Hs1 Htotal Hfin)
    as (s3 & new & Hstep3 & _ & Hnext & _).
  assert (s3 = s2) as -> by congruence.
  unfold finished in Hfin. apply orb_false_iff in Hfin as [Hne _].
  apply bool_decide_eq_false in Hne. lia.
Qed.

(** X2.  On an engine that [__init__] built, every number of calls of
    [reconstruct_to_next_time] returns (no index is ever out of range),
    and the time index stays between 0 and the last index. *)
Theorem run_never_raises (P : CS -> Prop) rm f b e i pts bts ets ids d self cs k :
  __init__ rm f b e i pts bts ets ids d = Ok self ->
  P cs -> policy_total P d ->
  exists s, advance k self cs = Some s /\
            0 <= current_time_index s <= last_time_index self.
Proof.
  intros Hinit HP Htotal.
  destruct (init_wf _ _ _ _ _ _ _ _ _ _ _ Hinit) as [Hself Hlast].
  assert (Hd : detect_collisions self = d).
  { by destruct (init_ok_inv _ _ _ _ _ _ _ _ _ _ _ Hinit)
      as (_ & _ & _ & _ & _ & _ & _ & _ & _ & _ & _ & _ & _ & _ & Hd & _). }
  rewrite <- Hd in Htotal.
  destruct (advance_wf P self cs k Hself HP Htotal) as (s & Hadv & _).
  exists s. split; [done|].
  apply (time_index_bounded P self cs k s); try done. lia.
Qed.



End EngineMore.

Section ClockMore.
Context `{Pygplates} {CS : Type}.
Import ReconstructByTopologies.
Implicit Types (self : t CS) (s : state CS).

Lemma signed_step_nonzero b e i : (0 < i)%Q -> ~ (signed_step b e i == 0)%Q.
Proof. intros Hi. unfold signed_step. destruct (Qgt_bool b e); lra. Qed.

(** X4.  The last sample time is the end time up to less than one step:
    it falls short of the end time by less than one step, and passes it
    by at most a millionth of a step. *)
Theorem last_sample_time_near_end
    rm f b e i pts bts ets ids (d : option (Policy CS)) self :
  __init__ rm f b e i pts bts ets ids d = Ok self ->
  exists dq : Q,
    (e - sample_time self (last_time_index self)
     == dq * reconstruction_time_step self)%Q /\
    (- (1 # 1000000) <= dq < 1)%Q.
Proof.
  intros Hinit.
  destruct (init_ok_inv _ _ _ _ _ _ _ _ _ _ _ Hinit)
    as (Hi & Hn & Hlast & Hstep & Hb & _).
  cbv zeta in Hn, Hstep. unfold sample_time. rewrite Hb, Hlast, Hn, Hstep.
  destruct (decide (count_times b e (signed_step b e i) = 1)) as [E1|E1].
  - exists 0%Q. split; [|lra]. change (inject_Z (2 - 1)) with 1%Q. ring.
  - set (x := signed_step b e i).
    pose proof (signed_step_nonzero b e i Hi) as Hx. fold x in Hx.
    unfold count_times. fold x.
    set (r := ((e - b) / x)%Q).
    set (m := Qfloor ((1 # 1000000) + r)).
    replace (1 + m - 1) with m by lia.
    exists (r - inject_Z m)%Q. split.
    + unfold r. field. exact Hx.
    + pose proof (Qfloor_le ((1 # 1000000) + r)) as Hlo.
      pose proof (Qlt_floor ((1 # 1000000) + r)) as Hhi.
      fold m in Hlo, Hhi. rewrite inject_Z_plus in Hhi.
      change (inject_Z 1) with 1%Q in Hhi. lra.
Qed.

Lemma count_times_symmetric b e i :
  (0 < i)%Q ->
  count_times b e (signed_step b e i) = count_times e b (signed_step e b i).
Proof.
  intros Hi. unfold count_times. f_equal. apply Qfloor_comp.
  apply Qplus_inj_l.
  unfold signed_step.
  destruct (Qgt_bool b e) eqn:E1; destruct (Qgt_bool e b) eqn:E2.
  - apply Qgt_bool_true in E1, E2. lra.
  - field. lra.
  - field. lra.
  - apply Qgt_bool_false in E1, E2.
    assert (Hz : (e - b == 0)%Q) by lra.
    assert (Hz' : (b - e == 0)%Q) by lra.
    unfold Qdiv. setoid_rewrite Hz. setoid_rewrite Hz'. ring.
Qed.

(** X5.  An engine from A to B and an engine from B to A with the same
    interval have the same number of sample times and the same interval
    length, and opposite steps. *)
Theorem step_count_symmetric
    rm f b e i pts bts ets ids rm' f' pts' bts' ets' ids'
    (d d' : option (Policy CS)) self1 self2 :
  __init__ rm f b e i pts bts ets ids d = Ok self1 ->
  __init__ rm' f' e b i pts' bts' ets' ids' d' = Ok self2 ->
  num_times self1 = num_times self2 /\
  (reconstruction_time_step self2 == - reconstruction_time_step self1)%Q /\
  (reconstruction_time_interval self1 == reconstruction_time_interval self2)%Q.
Proof.
  intros H1 H2.
  destruct (init_ok_inv _ _ _ _ _ _ _ _ _ _ _ H1) as (Hi & Hn1 & _ & Hs1 & _).
  destruct (init_ok_inv _ _ _ _ _ _ _ _ _ _ _ H2) as (_ & Hn2 & _ & Hs2 & _).
  cbv zeta in Hn1, Hs1, Hn2, Hs2.
  rewrite <- (count_times_symmetric b e i Hi) in Hn2, Hs2.
  assert (Hstep : (reconstruction_time_step self2
                   == - reconstruction_time_step self1)%Q).
  { rewrite Hs1, Hs2.
    destruct (decide (count_times b e (signed_step b e i) = 1)) as [E|E]; [ring|].
    unfold signed_step.
    destruct (Qgt_bool b e) eqn:E1; destruct (Qgt_bool e b) eqn:E2.
    - apply Qgt_bool_true in E1, E2. lra.
    - ring.
    - ring.
    - apply Qgt_bool_false in E1, E2. exfalso. apply E.
      apply count_times_empty_span; [done|lra]. }
  split; [congruence|]. split; [done|].
  assert (Hiv : forall self : t CS, forall rm f b e i pts bts ets ids d,
            __init__ rm f b e i pts bts ets ids d = Ok self ->
            reconstruction_time_interval self = Qabs (reconstruction_time_step self)).
  { intros self rm0 f0 b0 e0 i0 pts0 bts0 ets0 ids0 d0. unfold __init__.
    destruct (Qle_bool i0 0); [discriminate|].
    destruct (per_point bts0 _ _ _); [|discriminate].
    destruct (per_point ets0 _ _ _); [|discriminate].
    destruct (per_point ids0 _ _ _); [|discriminate].
    by intros [= <-]. }
  rewrite (Hiv _ _ _ _ _ _ _ _ _ _ _ H1), (Hiv _ _ _ _ _ _ _ _ _ _ _ H2).
  rewrite Hstep. symmetry. apply Qabs_opp.
Qed.

End ClockMore.

(** ** The extras on the small worlds *)

Section MoreOnSmallWorlds.
Import ReconstructByTopologies.
#[local] Existing Instance Toy.world.

(** The point of index 2 after the first step of the small world. *)
Lemma demo_point_2_first_step :
  (fun s => curr_points s !! 2%nat) <$> advance 1 Toy.demo Toy.default_collision
  = Some (Some (Some 31)).
Proof. vm_compute. reflexivity. Qed.

Lemma active_point_in_window_witness :
  exists s,
    advance 1 Toy.demo Toy.default_collision = Some s /\
    window Toy.demo (get_current_time Toy.demo s) 2 = true.
Proof.
  destruct (proj1 (fmap_Some _ _ _) demo_point_2_first_step) as (s & Hadv & Heq).
  exists s. split; [exact Hadv|].
  apply (active_point_in_window (fun _ => True) Toy.demo Toy.default_collision
           1 s 2 31).
  - apply demo_wf.
  - exact I.
  - apply default_collision_total.
  - exact Hadv.
  - by symmetry.
Defined.

Lemma run_never_raises_witness :
  exists s,
    advance 3 Toy.demo Toy.default_collision = Some s /\
    0 <= current_time_index s <= last_time_index Toy.demo.
Proof.
  apply (run_never_raises (H := Toy.world) (fun _ => True) tt tt 10 0 1 [99; -5; 30] None None None
           (Some DefaultCollision.__call__) Toy.demo Toy.default_collision 3).
  - reflexivity.
  - exact I.
  - apply default_collision_total.
Defined.



Lemma last_sample_time_near_end_witness :
  exists dq : Q,
    (0 - sample_time Toy.demo (last_time_index Toy.demo)
     == dq * reconstruction_time_step Toy.demo)%Q /\
    (- (1 # 1000000) <= dq < 1)%Q.
Proof.
  apply (last_sample_time_near_end (H := Toy.world) tt tt 10 0 1 [99; -5; 30] None None None
           (Some DefaultCollision.__call__) Toy.demo).
  reflexivity.
Defined.

Lemma step_count_symmetric_witness :
  exists self2 : t DefaultCollision.t,
    ReconstructByTopologies.__init__ (H := Toy.world) tt tt 0 10 1 [99; -5; 30]
      None None None None = Ok self2 /\
    num_times Toy.demo = num_times self2 /\
    (reconstruction_time_step self2 == - reconstruction_time_step Toy.demo)%Q /\
    (reconstruction_time_interval Toy.demo == reconstruction_time_interval self2)%Q.
Proof.
  eexists. split; [reflexivity|].
  eapply (step_count_symmetric (H := Toy.world) tt tt 10 0 1 [99; -5; 30] None None None
            tt tt [99; -5; 30] None None None
            (Some DefaultCollision.__call__) None Toy.demo).
  - reflexivity.
  - reflexivity.
Defined.

End MoreOnSmallWorlds.

(** ** The points that a step removes *)

Section Removals.
Context `{Pygplates} {CS : Type}.
Import ReconstructByTopologies.
Implicit Types (self : t CS) (s : state CS).

(** The collision loop removes no index twice, and removes an index only
    on a [True] of the policy. *)
Lemma detect_all_collisions_removed P self s detect :
  wf_state P self s -> policy_total P (detect_collisions self) ->
  detect_collisions self = Some detect ->
  exists cs new pcs,
    detect_all_collisions self s
      = Some (set_collision (set_curr_points s cs) pcs (deletedpoints s ++ new)) /\
    NoDup new /\
    (forall i, i ∈ new ->
       removed_by P self detect (get_current_time self s) s i).
Proof.
  intros Hs Htotal Hdetect. unfold detect_all_collisions. rewrite Hdetect.
  rewrite Hdetect in Htotal. specialize (Htotal detect eq_refl).
  set (n := num_points self). set (time := get_current_time self s).
  pose (I := fun (k : nat) (s' : state CS) =>
    exists cs new pcs,
      s' = set_collision (set_curr_points s cs) pcs (deletedpoints s ++ new) /\
      length cs = n /\ P pcs /\ NoDup new /\
      (forall i, i ∈ new -> (i < k)%nat /\ removed_by P self detect time s i) /\
      (forall i, i ∉ new -> cs !! i = curr_points s !! i)).
  destruct (for_range_inv (detect_collision_at self detect time) I n s)
    as (s' & Hrun & (cs & new & pcs & -> & Hl & HP & Hnd & Hnew & Hold)).
  - exists (curr_points s), [], (collision_state s).
    split; [apply collision_eta|]. split; [apply Hs|]. split; [apply Hs|].
    split; [apply NoDup_nil_2|].
    split; [|done]. intros i Hi. by apply elem_of_nil in Hi.
  - intros k s1 Hk (cs & new & pcs & -> & Hl & HP & Hnd & Hnew & Hold).
    assert (Hk_new : k ∉ new).
    { intros Hin. destruct (Hnew k Hin) as [Hlt _]. lia. }
    pose proof (Hold k Hk_new) as Hck.
    destruct (lookup_lt_is_Some_2 (prev_points s) k) as [pp Hpp].
    { rewrite (wf_prev_points _ _ _ Hs). done. }
    destruct (lookup_lt_is_Some_2 (curr_points s) k) as [cp Hcp].
    { rewrite (wf_curr_points _ _ _ Hs). done. }
    destruct (lookup_lt_is_Some_2 (prev_resolved_plate_boundaries s) k) as [pb Hpb].
    { rewrite (wf_prev_boundaries _ _ _ Hs). done. }
    destruct (lookup_lt_is_Some_2 (curr_resolved_plate_boundaries s) k) as [cb Hcb].
    { rewrite (wf_curr_boundaries _ _ _ Hs). done. }
    pose proof (wf_prev_topology _ _ _ Hs k pb Hpb) as Hpid.
    pose proof (wf_curr_topology _ _ _ Hs k cb Hcb) as Hcid.
    unfold detect_collision_at. simpl. rewrite Hpp, Hck, Hcp. simpl.
    assert (Hskip : I (S k)
              (set_collision (set_curr_points s cs) pcs (deletedpoints s ++ new))).
    { exists cs, new, pcs. split; [done|]. split; [done|]. split; [done|].
      split; [done|].
      split; [|done]. intros i Hi. destruct (Hnew i Hi) as [Hlt Hrest].
      split; [lia|done]. }
    destruct pp as [pp|]; [|eexists; split; [reflexivity|done]].
    destruct cp as [cp|]; [|eexists; split; [reflexivity|done]].
    rewrite Hpid, Hcid, Hpb, Hcb. simpl.
    match goal with
    | |- context [detect pcs ?q] =>
        destruct (Htotal pcs q HP) as (verdict & pcs' & Hcall & HP')
    end.
    { split; done. }
    rewrite Hcall. simpl. destruct verdict.
    + rewrite store_bind by lia. eexists. split; [reflexivity|].
      exists (<[k:=None]> cs), (new ++ [k]), pcs'.
      split; [simpl; by rewrite app_assoc|].
      split; [by rewrite length_insert|]. split; [done|].
      split.
      { apply NoDup_app. split; [done|]. split; [|apply NoDup_singleton].
        intros x Hx Hxk. apply list_elem_of_singleton in Hxk as ->. done. }
      split.
      * intros i Hi. apply elem_of_app in Hi as [Hi|Hi].
        -- destruct (Hnew i Hi) as (Hlt & Hrem). split; [lia|done].
        -- apply list_elem_of_singleton in Hi as ->. split; [lia|].
           exists pp, cp, pb, cb, pcs, pcs'. done.
      * intros i Hi. rewrite not_elem_of_app in Hi. destruct Hi as [Hi1 Hi2].
        rewrite list_elem_of_singleton in Hi2.
        rewrite list_lookup_insert_ne by done. by apply Hold.
    + eexists. split; [reflexivity|].
      exists cs, new, pcs'. split; [done|]. split; [done|]. split; [done|].
      split; [done|].
      split; [|done]. intros i Hi. destruct (Hnew i Hi) as [Hlt Hrest].
      split; [lia|done].
  - exists cs, new, pcs. split; [done|]. split; [done|].
    intros i Hi. by destruct (Hnew i Hi) as [_ Hrest].
Qed.

(** What a step appends to [deletedpoints]: distinct indices, each of a
    point that was active before the step and on which the policy
    returned [True]; the previous plate ID and boundary of the query are
    the current ones of the state before the step, the current ones
    those of the state after it. *)
Lemma step_removed P self s s' :
  wf_engine self -> wf_state P self s ->
  policy_total P (detect_collisions self) ->
  reconstruct_to_next_time self s = Some (true, s') ->
  exists new,
    deletedpoints s' = deletedpoints s ++ new /\
    NoDup new /\
    (forall i, i ∈ new ->
       exists detect pp cp pb cb cs0 cs1,
         detect_collisions self = Some detect /\
         curr_points s !! i = Some (Some pp) /\
         curr_resolved_plate_boundaries s !! i = Some pb /\
         curr_topology_plate_ids s !! i = Some (get_reconstruction_plate_id <$> pb) /\
         curr_resolved_plate_boundaries s' !! i = Some cb /\
         curr_topology_plate_ids s' !! i = Some (get_reconstruction_plate_id <$> cb) /\
         P cs0 /\
         detect cs0
           (collision_query self (get_current_time self s') pp cp
              (get_reconstruction_plate_id <$> pb) pb
              (get_reconstruction_plate_id <$> cb) cb) = Some (true, cs1)).
Proof.
  intros Hself Hs Htotal Hstep.
  destruct (finished self s) eqn:Hfin.
  { rewrite (step_finished self s Hfin) in Hstep. discriminate. }
  revert Hstep. unfold reconstruct_to_next_time.
  unfold finished in Hfin. apply orb_false_iff in Hfin as [-> ->].
  set (time := get_current_time self s).
  destruct (reconstruct_points_spec P self s time Hself Hs)
    as (ns & dict & -> & Hln & Hns).
  simpl.
  pose proof (wf_set_next_points P self s ns time Hs Hln Hns) as Hs1.
  pose proof (wf_rotate_buffers P self _ Hs1) as Hs2.
  set (s2 := rotate_buffers (set_next_points s ns)) in *.
  destruct (activate_deactivate_spec P self s2 Hself Hs2)
    as (cs & fl & -> & Hlc & Hlf & Hact).
  simpl.
  pose proof (wf_set_activated P self s2 cs fl _ Hself Hs2 Hlc Hlf Hact) as Hs3.
  set (s3 := set_activated (set_curr_points s2 cs) fl (count_true fl)) in *.
  destruct (find_resolved_spec P self s3 Hs3) as (ids & bs & -> & Hli & Hlb & Htop).
  simpl.
  assert (Hs4 : wf_state P self (set_curr_topology s3 ids bs)).
  { apply wf_set_curr_topology; try done.
    intros i c Hc. destruct (Htop i c Hc) as (poly & ? & ? & _). eauto. }
  set (s4 := set_curr_topology s3 ids bs) in *.
  destruct (detect_collisions self) as [detect|] eqn:Hdetect.
  - destruct (detect_all_collisions_removed P self s4 detect Hs4)
      as (cs' & new & pcs & Hrun & Hnd & Hnew).
    { by rewrite Hdetect. }
    { done. }
    rewrite Hrun. simpl. intros [= <-].
    exists new. split; [done|]. split; [done|].
    intros i Hi.
    destruct (Hnew i Hi) as (pp & cp & pb & cb & cs0 & cs1 &
                             Hpp & Hcp & Hpb & Hpid & Hcb & Hcid & HP0 & Hcall).
    exists detect, pp, cp, pb, cb, cs0, cs1. split; [done|].
    split; [exact Hpp|]. split; [exact Hpb|]. split; [exact Hpid|].
    split; [exact Hcb|]. split; [exact Hcid|]. split; [done|]. exact Hcall.
  - unfold detect_all_collisions. rewrite Hdetect. simpl. intros [= <-].
    exists []. split; [by rewrite app_nil_r|]. split; [apply NoDup_nil_2|].
    intros i Hi. by apply elem_of_nil in Hi.
Qed.

End Removals.

(** ** What the run does to a point *)

Section PointHistory.
Context `{Pygplates} {CS : Type}.
Import ReconstructByTopologies.
Implicit Types (self : t CS) (s : state CS).

(** The state after [k] steps of a run, with what holds of it. *)
Lemma advance_inv (P : CS -> Prop) self cs k s :
  wf_engine self -> P cs -> policy_total P (detect_collisions self) ->
  advance k self cs = Some s ->
  wf_state P self s /\ removed_stay_absent s.
Proof.
  intros Hself HP Htotal Hadv.
  destruct (advance_wf P self cs k Hself HP Htotal) as (s1 & Hadv1 & Hs).
  assert (s1 = s) as -> by congruence. split; [done|].
  destruct (begin_reconstruction_spec P self cs Hself HP)
    as (s0 & Hb & Hs0 & _ & Hdel0 & _).
  unfold advance in Hadv. rewrite Hb in Hadv. simpl in Hadv.
  assert (HK0 : removed_stay_absent s0).
  { intros i0 Hi0. rewrite Hdel0 in Hi0. by apply elem_of_nil in Hi0. }
  assert (Hstep : forall s1 s2, wf_state P self s1 -> removed_stay_absent s1 ->
            reconstruct_to_next_time self s1 = Some (true, s2) ->
            removed_stay_absent s2).
  { intros s1 s2 Hs1 HK1 Hst. by eapply removed_stay_absent_step. }
  exact (steps_invariant P self removed_stay_absent Hself Htotal Hstep
           k s0 s Hs0 HK0 Hadv).
Qed.

(** X6.  No index is recorded twice in [deletedpoints], in any state of
    a run. *)
Theorem removed_points_distinct (P : CS -> Prop) self cs k s :
  wf_engine self -> P cs -> policy_total P (detect_collisions self) ->
  advance k self cs = Some s ->
  NoDup (deletedpoints s).
Proof.
  intros Hself HP Htotal Hadv.
  pose (K := fun s1 : state CS =>
    NoDup (deletedpoints s1) /\ removed_stay_absent s1).
  destruct (begin_reconstruction_spec P self cs Hself HP)
    as (s0 & Hb & Hs0 & _ & Hdel0 & _).
  unfold advance in Hadv. rewrite Hb in Hadv. simpl in Hadv.
  assert (HK0 : K s0).
  { split; [rewrite Hdel0; apply NoDup_nil_2|].
    intros i0 Hi0. rewrite Hdel0 in Hi0. by apply elem_of_nil in Hi0. }
  assert (Hstep : forall s1 s2, wf_state P self s1 -> K s1 ->
            reconstruct_to_next_time self s1 = Some (true, s2) -> K s2).
  { intros s1 s2 Hs1 [Hnd HK1] Hst.
    split; [|by eapply removed_stay_absent_step].
    destruct (step_removed P self s1 s2 Hself Hs1 Htotal Hst)
      as (new & -> & Hnew & Hwhy).
    apply NoDup_app. split; [done|]. split; [|done].
    intros i Hold Hin.
    destruct (Hwhy i Hin) as (_ & pp & _ & _ & _ & _ & _ & _ & Hpp & _).
    destruct (HK1 i Hold) as [Hnone _]. congruence. }
  exact (proj1 (steps_invariant P self K Hself Htotal Hstep k s0 s Hs0 HK0 Hadv)).
Qed.

(** X8.  A point that has been activated and is not active stays
    inactive: whether it left its window or was removed by a collision,
    no later step brings it back. *)
Theorem deactivation_is_final (P : CS -> Prop) self cs k s i j s' :
  wf_engine self -> P cs -> policy_total P (detect_collisions self) ->
  advance k self cs = Some s ->
  curr_points s !! i = Some None ->
  point_has_been_activated s !! i = Some true ->
  steps j self s = Some s' ->
  curr_points s' !! i = Some None /\ point_has_been_activated s' !! i = Some true.
Proof.
  intros Hself HP Htotal Hadv Hnone Hflag Hsteps.
  destruct (advance_inv P self cs k s Hself HP Htotal Hadv) as [Hs _].
  pose (K := fun s1 : state CS =>
    curr_points s1 !! i = Some None /\ point_has_been_activated s1 !! i = Some true).
  assert (Hstep : forall s1 s2, wf_state P self s1 -> K s1 ->
            reconstruct_to_next_time self s1 = Some (true, s2) -> K s2).
  { intros s1 s2 Hs1 [Hc1 Ha1] Hst.
    destruct (finished self s1) eqn:Hfin.
    { rewrite (step_finished self s1 Hfin) in Hst. discriminate. }
    destruct (step_spec P self s1 Hself Hs1 Htotal Hfin)
      as (s3 & new & Hst3 & Hs3 & _ & _ & _ & _ & _ & _ & Hpt & _).
    assert (s3 = s2) as -> by congruence.
    assert (Hi : (i < num_points self)%nat).
    { apply lookup_lt_Some in Hc1. by rewrite (wf_curr_points _ _ _ Hs1) in Hc1. }
    destruct (lookup_lt_is_Some_2 (curr_topology_plate_ids s1) i) as [pid Hpid].
    { by rewrite (wf_curr_ids _ _ _ Hs1). }
    destruct (lookup_lt_is_Some_2 (next_points s1) i) as [st Hst1].
    { by rewrite (wf_next_points _ _ _ Hs1). }
    destruct (lookup_lt_is_Some_2 (points self) i) as [seed Hseed].
    { destruct Hself as (-> & _). done. }
    pose proof (Hpt i None pid st true seed Hc1 Hpid Hst1 Ha1 Hseed) as Hx.
    cbv zeta in Hx. destruct Hx as (Hfl & Hout & Hin).
    split; [|exact Hfl].
    destruct (decide (i ∈ new)) as [Hi_new|Hi_old].
    - by destruct (Hin Hi_new).
    - exact (Hout Hi_old). }
  exact (steps_invariant P self K Hself Htotal Hstep j s s' Hs (conj Hnone Hflag) Hsteps).
Qed.

(** X9.  A step moves an active point that lies in a polygon by the
    stage rotation of the plate of that polygon, from the current time
    to the current time plus the step, provided the new time is in the
    window of the point and the policy does not remove it. *)
Theorem located_point_follows_its_plate (P : CS -> Prop) self cs k s s' i p id :
  wf_engine self -> P cs -> policy_total P (detect_collisions self) ->
  advance k self cs = Some s ->
  reconstruct_to_next_time self s = Some (true, s') ->
  curr_points s !! i = Some (Some p) ->
  curr_topology_plate_ids s !! i = Some (Some id) ->
  window self (get_current_time self s') i = true ->
  i ∉ deletedpoints s' ->
  curr_points s' !! i
  = Some (Some (rotate
                  (get_rotation (rotation_model self)
                     (get_current_time self s + reconstruction_time_step self)%Q
                     id (get_current_time self s)) p)).
Proof.
  intros Hself HP Htotal Hadv Hstep Hp Hid Hwin Hkept.
  destruct (advance_inv P self cs k s Hself HP Htotal Hadv) as [Hs _].
  destruct (finished self s) eqn:Hfin.
  { rewrite (step_finished self s Hfin) in Hstep. discriminate. }
  destruct (step_spec P self s Hself Hs Htotal Hfin)
    as (s3 & new & Hst3 & Hs3 & _ & _ & _ & _ & _ & Hdel & Hpt & _).
  assert (s3 = s') as -> by congruence.
  assert (Hi : (i < num_points self)%nat).
  { apply lookup_lt_Some in Hp. by rewrite (wf_curr_points _ _ _ Hs) in Hp. }
  destruct (lookup_lt_is_Some_2 (next_points s) i) as [st Hst1].
  { by rewrite (wf_next_points _ _ _ Hs). }
  destruct (lookup_lt_is_Some_2 (point_has_been_activated s) i) as [a Ha].
  { by rewrite (wf_activated _ _ _ Hs). }
  destruct (lookup_lt_is_Some_2 (points self) i) as [seed Hseed].
  { destruct Hself as (-> & _). done. }
  pose proof (Hpt i (Some p) (Some id) st a seed Hp Hid Hst1 Ha Hseed) as Hx.
  cbv zeta in Hx. destruct Hx as (_ & Hout & _).
  rewrite Hout.
  - rewrite Hwin. reflexivity.
  - intros Hin. apply Hkept. rewrite Hdel. apply elem_of_app. by right.
Qed.

(** X10.  Without a collision policy no point is ever recorded as
    removed. *)
Theorem collisions_off_never_delete self cs k s :
  wf_engine self -> detect_collisions self = None ->
  advance k self cs = Some s ->
  deletedpoints s = [].
Proof.
  intros Hself Hd Hadv.
  pose (P := fun _ : CS => True).
  pose proof (policy_total_none P self Hd) as Htotal.
  destruct (begin_reconstruction_spec P self cs Hself I)
    as (s0 & Hb & Hs0 & _ & Hdel0 & _).
  unfold advance in Hadv. rewrite Hb in Hadv. simpl in Hadv.
  assert (Hstep : forall s1 s2, wf_state P self s1 -> deletedpoints s1 = [] ->
            reconstruct_to_next_time self s1 = Some (true, s2) ->
            deletedpoints s2 = []).
  { intros s1 s2 Hs1 HK1 Hst.
    destruct (finished self s1) eqn:Hfin.
    { rewrite (step_finished self s1 Hfin) in Hst. discriminate. }
    destruct (step_spec P self s1 Hself Hs1 Htotal Hfin)
      as (s3 & new & Hst3 & _ & _ & _ & _ & _ & _ & Hdel & _ & _ & _ & Hoff & _).
    assert (s3 = s2) as -> by congruence.
    by rewrite Hdel, HK1, (Hoff Hd). }
  exact (steps_invariant P self (fun s1 => deletedpoints s1 = [])
           Hself Htotal Hstep k s0 s Hs0 Hdel0 Hadv).
Qed.

End PointHistory.

(** ** Runs with the default policy *)

Section DefaultRuns.
Context `{Pygplates}.
Import ReconstructByTopologies.

(** The default policy returns [True] only for a point with two known
    and different plate IDs. *)
Lemma default_collision_true_inv (self self' : DefaultCollision.t) q :
  DefaultCollision.__call__ self q = Some (true, self') ->
  exists a b,
    q_prev_topology_plate_id q = Some a /\
    q_curr_topology_plate_id q = Some b /\
    a <> b.
Proof.
  unfold DefaultCollision.__call__.
  destruct (q_prev_topology_plate_id q) as [a|]; [|discriminate].
  destruct (q_curr_topology_plate_id q) as [b|]; [|discriminate].
  case_decide as Hab; [discriminate|]. intros _. exists a, b. by repeat split; auto.
Qed.

(** X7.  With the default policy, a point that a step records as removed
    has changed plate in this step: its plate IDs before and after the
    step are both known and differ. *)
Theorem default_policy_removes_plate_changers
    (self : t DefaultCollision.t) cs k (s s' : state DefaultCollision.t) i :
  wf_engine self ->
  detect_collisions self = Some DefaultCollision.__call__ ->
  advance k self cs = Some s ->
  reconstruct_to_next_time self s = Some (true, s') ->
  i ∈ deletedpoints s' -> i ∉ deletedpoints s ->
  exists a b,
    curr_topology_plate_ids s !! i = Some (Some a) /\
    curr_topology_plate_ids s' !! i = Some (Some b) /\
    a <> b.
Proof.
  intros Hself Hd Hadv Hstep Hin Hout.
  pose (P := fun _ : DefaultCollision.t => True).
  assert (Htotal : policy_total P (detect_collisions self)).
  { rewrite Hd. apply default_collision_total. }
  destruct (advance_inv P self cs k s Hself I Htotal Hadv) as [Hs _].
  destruct (step_removed P self s s' Hself Hs Htotal Hstep)
    as (new & Hdel & _ & Hwhy).
  rewrite Hdel in Hin. apply elem_of_app in Hin as [Hin|Hin]; [done|].
  destruct (Hwhy i Hin) as (detect & pp & cp & pb & cb & cs0 & cs1 &
                            Hdet & _ & _ & Hpid & _ & Hcid & _ & Hcall).
  assert (detect = DefaultCollision.__call__) as -> by congruence.
  destruct (default_collision_true_inv cs0 cs1 _ Hcall) as (a & b & Ha & Hb & Hab).
  simpl in Ha, Hb. exists a, b. rewrite Hpid, Hcid, Ha, Hb. done.
Qed.

End DefaultRuns.

(** ** The topology arrays of inactive points *)

Section TopologyOfInactivePoints.
Context `{Pygplates} {CS : Type}.
Import ReconstructByTopologies.
Implicit Types (self : t CS) (s : state CS).

(** A step that makes progress ends with the membership resolution, on
    a state [s3] at the new time, and the collision loop on its result
    [s4]. *)
Lemma step_phases P self s s' :
  wf_engine self -> wf_state P self s ->
  policy_total P (detect_collisions self) ->
  reconstruct_to_next_time self s = Some (true, s') ->
  exists s3 s4,
    wf_state P self s3 /\ wf_state P self s4 /\
    _find_resolved_topologies_containing_points self s3 = Some s4 /\
    detect_all_collisions self s4 = Some s' /\
    current_time_index s3 = current_time_index s' /\
    curr_points s4 = curr_points s3 /\
    prev_points s4 = curr_points s /\
    deletedpoints s4 = deletedpoints s.
Proof.
  intros Hself Hs Htotal Hstep.
  destruct (finished self s) eqn:Hfin.
  { rewrite (step_finished self s Hfin) in Hstep. discriminate. }
  revert Hstep. unfold reconstruct_to_next_time.
  unfold finished in Hfin. apply orb_false_iff in Hfin as [-> ->].
  set (time := get_current_time self s).
  destruct (reconstruct_points_spec P self s time Hself Hs)
    as (ns & dict & -> & Hln & Hns).
  simpl.
  pose proof (wf_set_next_points P self s ns time Hs Hln Hns) as Hs1.
  pose proof (wf_rotate_buffers P self _ Hs1) as Hs2.
  set (s2 := rotate_buffers (set_next_points s ns)) in *.
  destruct (activate_deactivate_spec P self s2 Hself Hs2)
    as (cs & fl & -> & Hlc & Hlf & Hact).
  simpl.
  pose proof (wf_set_activated P self s2 cs fl _ Hself Hs2 Hlc Hlf Hact) as Hs3.
  set (s3 := set_activated (set_curr_points s2 cs) fl (count_true fl)) in *.
  destruct (find_resolved_spec P self s3 Hs3) as (ids & bs & Hfind & Hli & Hlb & Htop).
  rewrite Hfind. simpl.
  assert (Hs4 : wf_state P self (set_curr_topology s3 ids bs)).
  { apply wf_set_curr_topology; try done.
    intros i c Hc. destruct (Htop i c Hc) as (poly & ? & ? & _). eauto. }
  destruct (detect_all_collisions_spec P self _ Hs4 Htotal)
    as (cs' & new & pcs & Hrun & _).
  rewrite Hrun. simpl. intros [= <-].
  exists s3, (set_curr_topology s3 ids bs).
  split; [done|]. split; [done|]. split; [done|]. split; [done|]. done.
Qed.

(** C3, amended.  Right after [begin_reconstruction], and at the end of
    every step for every point that the collision policy did not remove
    in this very step, an absent current position comes with an absent
    current plate ID and an absent current boundary.  The collision
    loop of a step, run on the state [s4] that the membership
    resolution of the step returned, leaves the plate IDs and the
    boundaries as they are: a point that it removes (the indices [new]
    that the step appends to [deletedpoints]) has an absent position
    and keeps the polygon that the resolution found for its position,
    with the plate ID of that polygon.  The next step that makes
    progress sets the plate ID and the boundary of such a point to
    absent. *)
Theorem topology_absent_when_inactive P self cs :
  wf_engine self -> P cs -> policy_total P (detect_collisions self) ->
  (exists s0,
     begin_reconstruction self cs = Some s0 /\
     forall i, curr_points s0 !! i = Some None ->
       curr_topology_plate_ids s0 !! i = Some None /\
       curr_resolved_plate_boundaries s0 !! i = Some None) /\
  (forall s s',
     wf_state P self s ->
     reconstruct_to_next_time self s = Some (true, s') ->
     exists new s3 s4,
       deletedpoints s' = deletedpoints s ++ new /\
       (forall i, i ∉ new -> curr_points s' !! i = Some None ->
          curr_topology_plate_ids s' !! i = Some None /\
          curr_resolved_plate_boundaries s' !! i = Some None) /\
       _find_resolved_topologies_containing_points self s3 = Some s4 /\
       detect_all_collisions self s4 = Some s' /\
       curr_topology_plate_ids s' = curr_topology_plate_ids s4 /\
       curr_resolved_plate_boundaries s' = curr_resolved_plate_boundaries s4 /\
       (forall i, i ∈ new ->
          curr_points s' !! i = Some None /\
          exists cp poly,
            curr_points s4 !! i = Some (Some cp) /\
            (let resolved :=
               resolve_topologies (topology_features self) (rotation_model self)
                 (get_current_time self s') in
             find_polygons (omap id (curr_points s4))
               (get_resolved_boundary <$> resolved) resolved
               !! length (omap id (take i (curr_points s4))) = Some poly) /\
            curr_resolved_plate_boundaries s' !! i = Some poly /\
            curr_topology_plate_ids s' !! i
              = Some (get_reconstruction_plate_id <$> poly)) /\
       (forall s'' i,
          reconstruct_to_next_time self s' = Some (true, s'') ->
          i ∈ new ->
          curr_points s'' !! i = Some None /\
          curr_topology_plate_ids s'' !! i = Some None /\
          curr_resolved_plate_boundaries s'' !! i = Some None)).
Proof.
  intros Hself HP Htotal. split.
  - destruct (begin_reconstruction_spec P self cs Hself HP)
      as (s0 & Hb & _ & _ & _ & Habs & _).
    by exists s0.
  - intros s s' Hs Hstep.
    destruct (step_phases P self s s' Hself Hs Htotal Hstep)
      as (s3 & s4 & Hs3 & Hs4 & Hfind & Hrun & Hidx & Hc43 & Hprev4 & Hdel4).
    destruct (find_resolved_spec P self s3 Hs3)
      as (ids & bs & Hfind' & Hli & Hlb & Htop).
    assert (Hs4eq : s4 = set_curr_topology s3 ids bs) by congruence.
    destruct (detect_all_collisions_spec P self s4 Hs4 Htotal)
      as (cs' & new & pcs & Hrun' & Hlc' & HPpcs & Hnew & Hold & _).
    assert (Hs'eq : s' = set_collision (set_curr_points s4 cs') pcs
                           (deletedpoints s4 ++ new)) by congruence.
    assert (Htime : get_current_time self s' = get_current_time self s3).
    { unfold get_current_time. by rewrite Hidx. }
    assert (Hids' : curr_topology_plate_ids s' = ids).
    { rewrite Hs'eq, Hs4eq. reflexivity. }
    assert (Hbs' : curr_resolved_plate_boundaries s' = bs).
    { rewrite Hs'eq, Hs4eq. reflexivity. }
    assert (Hcs' : curr_points s' = cs').
    { rewrite Hs'eq. reflexivity. }
    assert (Hwf' : wf_state P self s').
    { rewrite Hs'eq. apply wf_set_collision; try done.
      intros i. destruct (decide (i ∈ new)) as [Hin|Hout].
      - destruct (Hnew i Hin) as (_ & _ & _ & _ & ->). by left.
      - right. by apply Hold. }
    exists new, s3, s4.
    split; [rewrite Hs'eq, <- Hdel4; reflexivity|].
    split.
    { intros i Hout Hnone. rewrite Hcs', (Hold i Hout), Hc43 in Hnone.
      destruct (Htop i None Hnone) as (poly & Hb & Hid & ->).
      by rewrite Hids', Hbs'. }
    split; [done|]. split; [done|].
    split; [rewrite Hids', Hs4eq; reflexivity|].
    split; [rewrite Hbs', Hs4eq; reflexivity|].
    split.
    { intros i Hin.
      destruct (Hnew i Hin) as (pp & cp & Hpp & Hcp & Hnone).
      split; [by rewrite Hcs'|].
      pose proof Hcp as Hcp3. rewrite Hc43 in Hcp3.
      destruct (Htop i (Some cp) Hcp3) as (poly & Hb & Hid & Hfound).
      exists cp, poly. split; [done|]. cbv zeta in Hfound |- *.
      split; [by rewrite Htime, Hc43|]. by rewrite Hids', Hbs'. }
    intros s'' i Hstep' Hin.
    destruct (Hnew i Hin) as (pp & cp & Hpp & Hcp & Hnone).
    rewrite <- Hcs' in Hnone.
    destruct (finished self s') eqn:Hfin.
    { rewrite (step_finished self s' Hfin) in Hstep'. discriminate. }
    destruct (step_spec P self s' Hself Hwf' Htotal Hfin)
      as (sx & new' & Hstepx & Hwfx & _ & _ & _ & _ & _ & _ & Hpt & _ & Htop' & _).
    assert (sx = s'') as -> by congruence.
    assert (Hi : (i < num_points self)%nat).
    { apply lookup_lt_Some in Hnone. by rewrite (wf_curr_points _ _ _ Hwf') in Hnone. }
    assert (Hflag : point_has_been_activated s' !! i = Some true).
    { apply (wf_active_activated _ _ _ Hwf' i pp). left.
      rewrite Hs'eq. simpl. exact Hpp. }
    destruct (lookup_lt_is_Some_2 (curr_topology_plate_ids s') i) as [pid Hpid].
    { by rewrite (wf_curr_ids _ _ _ Hwf'). }
    destruct (lookup_lt_is_Some_2 (next_points s') i) as [st Hst].
    { by rewrite (wf_next_points _ _ _ Hwf'). }
    destruct (lookup_lt_is_Some_2 (points self) i) as [seed Hseed].
    { destruct Hself as (-> & _). done. }
    pose proof (Hpt i None pid st true seed Hnone Hpid Hst Hflag Hseed) as Hx.
    cbv zeta in Hx. destruct Hx as (_ & Hout' & Hin').
    assert (Hnot : i ∉ new').
    { intros Hi'. destruct (Hin' Hi') as (_ & _ & [? ?]). discriminate. }
    pose proof (Hout' Hnot) as Hc''. simpl in Hc''.
    split; [exact Hc''|].
    destruct (Htop' i Hi) as (poly & Hb & Hid & Hpoly).
    rewrite (Hpoly Hnot Hc'') in Hb, Hid. done.
Qed.

End TopologyOfInactivePoints.

Section MixedPoints.
Import ReconstructByTopologies.
#[local] Existing Instance Toy.world.

(** The first state and the first two steps of the engine with the three
    points of [Toy.demo_mixed]. *)
Lemma demo_mixed_begin :
  (fun s => curr_points s !! 2%nat)
    <$> begin_reconstruction Toy.demo_mixed Toy.default_collision
  = Some (Some None).
Proof. vm_compute. reflexivity. Qed.

Lemma demo_mixed_first_step :
  (fun r : bool * state DefaultCollision.t =>
     (r.1, (deletedpoints r.2,
            (curr_points r.2 !! 1%nat,
             (curr_topology_plate_ids r.2 !! 0%nat,
              curr_resolved_plate_boundaries r.2 !! 0%nat)))))
    <$> (begin_reconstruction Toy.demo_mixed Toy.default_collision
         ≫= reconstruct_to_next_time Toy.demo_mixed)
  = Some (true, ([0%nat], (Some None, (Some (Some 20), Some (Some 20))))).
Proof. vm_compute. reflexivity. Qed.

Lemma demo_mixed_second_step :
  fst <$> ((begin_reconstruction Toy.demo_mixed Toy.default_collision
            ≫= reconstruct_to_next_time Toy.demo_mixed)
           ≫= (fun r : bool * state DefaultCollision.t =>
                 reconstruct_to_next_time Toy.demo_mixed r.2))
  = Some true.
Proof. vm_compute. reflexivity. Qed.

Lemma topology_absent_when_inactive_witness :
  exists s0 s1 s2,
    begin_reconstruction Toy.demo_mixed Toy.default_collision = Some s0 /\
    curr_points s0 !! 2%nat = Some None /\
    curr_topology_plate_ids s0 !! 2%nat = Some None /\
    curr_resolved_plate_boundaries s0 !! 2%nat = Some None /\
    reconstruct_to_next_time Toy.demo_mixed s0 = Some (true, s1) /\
    deletedpoints s1 = [0%nat] /\
    curr_points s1 !! 1%nat = Some None /\
    curr_topology_plate_ids s1 !! 1%nat = Some None /\
    curr_resolved_plate_boundaries s1 !! 1%nat = Some None /\
    curr_points s1 !! 0%nat = Some None /\
    curr_topology_plate_ids s1 !! 0%nat = Some (Some 20) /\
    curr_resolved_plate_boundaries s1 !! 0%nat = Some (Some 20) /\
    reconstruct_to_next_time Toy.demo_mixed s1 = Some (true, s2) /\
    curr_points s2 !! 0%nat = Some None /\
    curr_topology_plate_ids s2 !! 0%nat = Some None /\
    curr_resolved_plate_boundaries s2 !! 0%nat = Some None.
Proof.
  assert (Hself : wf_engine Toy.demo_mixed).
  { split; [|split; [|split]]; reflexivity. }
  destruct (topology_absent_when_inactive (fun _ => True) Toy.demo_mixed
              Toy.default_collision Hself I default_collision_total)
    as [(s0 & Hb & Hbegin) Hsteps].
  destruct (begin_reconstruction_spec (fun _ => True) Toy.demo_mixed
              Toy.default_collision Hself I)
    as (s0' & Hb' & Hwf0 & Hidx0 & Hdel0 & _).
  assert (s0' = s0) as -> by congruence.
  (* the second step *)
  destruct (proj1 (fmap_Some _ _ _) demo_mixed_second_step) as ([b2 s2] & Hrun2 & Hb2).
  apply bind_Some in Hrun2 as ([b1 s1] & Hrun1 & Hstep2).
  apply bind_Some in Hrun1 as (s0' & Hb'' & Hstep1).
  assert (s0' = s0) as -> by congruence.
  simpl in Hb2. subst b2. simpl in Hstep2.
  (* the first step *)
  pose proof demo_mixed_first_step as H1. rewrite Hb in H1.
  change (Some s0 ≫= reconstruct_to_next_time Toy.demo_mixed)
    with (reconstruct_to_next_time Toy.demo_mixed s0) in H1.
  rewrite Hstep1 in H1. apply (inj Some) in H1.
  apply pair_equal_spec in H1 as [Hb1 H1]. simpl in Hb1. subst b1.
  apply pair_equal_spec in H1 as [Hdel1 H1].
  apply pair_equal_spec in H1 as [Hc11 H1].
  apply pair_equal_spec in H1 as [Hid10 Hbd10].
  simpl in Hdel1, Hc11, Hid10, Hbd10.
  (* the first state *)
  pose proof demo_mixed_begin as H0. rewrite Hb in H0. apply (inj Some) in H0.
  destruct (Hbegin 2%nat H0) as [Hid02 Hbd02].
  destruct (Hsteps s0 s1 Hwf0 Hstep1)
    as (new & s3 & s4 & Hdel & Hinactive & _ & _ & _ & _ & Hremoved & Hnext).
  assert (Hnew : new = [0%nat]).
  { rewrite Hdel, Hdel0 in Hdel1. exact Hdel1. }
  subst new.
  destruct (Hinactive 1%nat) as [Hid11 Hbd11].
  { intros Hin. apply list_elem_of_singleton in Hin. discriminate. }
  { exact Hc11. }
  destruct (Hremoved 0%nat (list_elem_of_here _ _)) as [Hc10 _].
  destruct (Hnext s2 0%nat Hstep2 (list_elem_of_here _ _)) as (Hc20 & Hid20 & Hbd20).
  exists s0, s1, s2.
  split; [exact Hb|]. split; [exact H0|]. split; [exact Hid02|].
  split; [exact Hbd02|]. split; [exact Hstep1|]. split; [exact Hdel1|].
  split; [exact Hc11|]. split; [exact Hid11|]. split; [exact Hbd11|].
  split; [exact Hc10|]. split; [exact Hid10|]. split; [exact Hbd10|].
  split; [exact Hstep2|]. split; [exact Hc20|]. split; [exact Hid20|exact Hbd20].
Defined.

End MixedPoints.

Section HistoryOnSmallWorld.
Import ReconstructByTopologies.
#[local] Existing Instance Toy.world.

(** The first state of the small world, and its first step. *)
Lemma demo_start :
  (fun s => (curr_points s !! 2%nat,
             (curr_topology_plate_ids s !! 0%nat,
              curr_topology_plate_ids s !! 2%nat)))
    <$> advance 0 Toy.demo Toy.default_collision
  = Some (Some (Some 30), (Some (Some 1), Some (Some 1))).
Proof. vm_compute. reflexivity. Qed.

Lemma demo_step_from_start :
  (fun r : bool * state DefaultCollision.t =>
     (r.1, (deletedpoints r.2,
            (curr_topology_plate_ids r.2 !! 0%nat, curr_points r.2 !! 2%nat))))
    <$> (advance 0 Toy.demo Toy.default_collision
         ≫= reconstruct_to_next_time Toy.demo)
  = Some (true, ([0%nat], (Some (Some 20), Some (Some 31)))).
Proof. vm_compute. reflexivity. Qed.

Lemma demo_first_step_flag :
  (fun s => point_has_been_activated s !! 0%nat)
    <$> advance 1 Toy.demo Toy.default_collision
  = Some (Some true).
Proof. vm_compute. reflexivity. Qed.

(** The first state and the first step as states. *)
Lemma demo_first_step_states :
  exists s s',
    advance 0 Toy.demo Toy.default_collision = Some s /\
    reconstruct_to_next_time Toy.demo s = Some (true, s') /\
    curr_points s !! 2%nat = Some (Some 30) /\
    curr_topology_plate_ids s !! 0%nat = Some (Some 1) /\
    curr_topology_plate_ids s !! 2%nat = Some (Some 1) /\
    deletedpoints s' = [0%nat] /\
    curr_topology_plate_ids s' !! 0%nat = Some (Some 20) /\
    curr_points s' !! 2%nat = Some (Some 31).
Proof.
  destruct (proj1 (fmap_Some _ _ _) demo_step_from_start) as ([b s'] & Hrun & Heq).
  apply bind_Some in Hrun as (s & Hadv & Hstep).
  pose proof demo_start as H0. rewrite Hadv in H0. simpl in H0.
  injection H0 as H01 H02 H03.
  simpl in Heq. injection Heq as Hb Hdel Hid Hc. subst b.
  exists s, s'. split; [done|]. split; [done|]. split; [done|]. split; [done|].
  split; [done|]. split; [by symmetry|]. split; by symmetry.
Qed.

Lemma removed_points_distinct_witness :
  exists s,
    advance 1 Toy.demo Toy.default_collision = Some s /\
    deletedpoints s = [0%nat] /\
    NoDup (deletedpoints s).
Proof.
  destruct (proj1 (fmap_Some _ _ _) demo_first_step) as (s & Hadv & Heq).
  injection Heq as Hdel _ _ _.
  exists s. split; [exact Hadv|]. split; [by symmetry|].
  apply (removed_points_distinct (fun _ => True) Toy.demo Toy.default_collision 1 s).
  - apply demo_wf.
  - exact I.
  - apply default_collision_total.
  - exact Hadv.
Defined.

Lemma default_policy_removes_plate_changers_witness :
  exists s s' a b,
    advance 0 Toy.demo Toy.default_collision = Some s /\
    reconstruct_to_next_time Toy.demo s = Some (true, s') /\
    deletedpoints s' = [0%nat] /\
    curr_topology_plate_ids s !! 0%nat = Some (Some a) /\
    curr_topology_plate_ids s' !! 0%nat = Some (Some b) /\
    a <> b.
Proof.
  destruct demo_first_step_states
    as (s & s' & Hadv & Hstep & _ & _ & _ & Hdel & _).
  destruct (default_policy_removes_plate_changers Toy.demo Toy.default_collision
              0 s s' 0) as (a & b & Ha & Hb & Hab).
  - apply demo_wf.
  - reflexivity.
  - exact Hadv.
  - exact Hstep.
  - rewrite Hdel. apply list_elem_of_here.
  - assert (Hdel0 : deletedpoints s = []).
    { assert (Hx : deletedpoints <$> advance 0 Toy.demo Toy.default_collision
                   = Some []) by (vm_compute; reflexivity).
      rewrite Hadv in Hx. by injection Hx. }
    rewrite Hdel0. apply not_elem_of_nil.
  - exists s, s', a, b. done.
Defined.

Lemma deactivation_is_final_witness :
  exists s s',
    advance 1 Toy.demo Toy.default_collision = Some s /\
    steps 5 Toy.demo s = Some s' /\
    curr_points s' !! 0%nat = Some None.
Proof.
  destruct (proj1 (fmap_Some _ _ _) demo_first_step) as (s & Hadv & Heq).
  injection Heq as _ Hnone _ _.
  destruct (proj1 (fmap_Some _ _ _) demo_first_step_flag) as (s1 & Hadv1 & Hflag).
  assert (s1 = s) as -> by congruence.
  destruct (advance_inv (fun _ => True) Toy.demo Toy.default_collision 1 s
              (proj1 demo_wf) I default_collision_total Hadv) as [Hs _].
  destruct (steps_wf (fun _ => True) Toy.demo (proj1 demo_wf)
              default_collision_total 5 s Hs) as (s' & Hsteps & _).
  exists s, s'. split; [exact Hadv|]. split; [exact Hsteps|].
  apply (deactivation_is_final (fun _ => True) Toy.demo Toy.default_collision
           1 s 0 5 s').
  - apply demo_wf.
  - exact I.
  - apply default_collision_total.
  - exact Hadv.
  - by symmetry.
  - by symmetry.
  - exact Hsteps.
Defined.

Lemma located_point_follows_its_plate_witness :
  exists s s',
    advance 0 Toy.demo Toy.default_collision = Some s /\
    reconstruct_to_next_time Toy.demo s = Some (true, s') /\
    curr_points s !! 2%nat = Some (Some 30) /\
    curr_points s' !! 2%nat
    = Some (Some (rotate
                    (get_rotation (rotation_model Toy.demo)
                       (get_current_time Toy.demo s
                        + reconstruction_time_step Toy.demo)%Q
                       1 (get_current_time Toy.demo s)) 30)).
Proof.
  destruct demo_first_step_states
    as (s & s' & Hadv & Hstep & Hp & _ & Hid & Hdel & _).
  exists s, s'. split; [exact Hadv|]. split; [exact Hstep|]. split; [exact Hp|].
  apply (located_point_follows_its_plate (fun _ => True) Toy.demo
           Toy.default_collision 0 s s' 2 30 1).
  - apply demo_wf.
  - exact I.
  - apply default_collision_total.
  - exact Hadv.
  - exact Hstep.
  - exact Hp.
  - exact Hid.
  - reflexivity.
  - rewrite Hdel. intros Hin. apply list_elem_of_singleton in Hin. discriminate.
Defined.

Lemma collisions_off_never_delete_witness :
  exists s,
    advance 1 Toy.demo_off Toy.default_collision = Some s /\
    deletedpoints s = [].
Proof.
  destruct (advance_wf (fun _ => True) Toy.demo_off Toy.default_collision 1)
    as (s & Hadv & _).
  { apply demo_wf. } { exact I. } { by apply policy_total_none. }
  exists s. split; [exact Hadv|].
  apply (collisions_off_never_delete Toy.demo_off Toy.default_collision 1 s).
  - apply demo_wf.
  - reflexivity.
  - exact Hadv.
Defined.

End HistoryOnSmallWorld.
